(** * Analysis-step decorations of the SARIF viewer extension

    A shallow embedding of [src/Source/extension/index.activateDecorations.ts]
    ([activateDecorations]): the sticky "pinned result" box, the update pass
    that projects the thread-flow locations of the pinned result onto every
    visible editor, the end-of-line callout layout, and the observer of the
    log collection.

    Conventions of the embedding.
    - JavaScript numbers that are line or character indices are [nat]
      (a [vscode.Position] rejects negative values); the column arithmetic
      of the layout is done in [Z], and [Math.max] of an empty argument list
      is the extra value [NegInfinity].
    - An exception is the [Threw] outcome; the [setDecorations] calls issued
      before it are kept in the trace of the pass.
    - A JavaScript object that is compared by identity ([Array.indexOf])
      carries its heap reference in a field [ref].
    - The asynchronous pass is modelled as one uninterrupted run (its
      suspension points are not interleaved with other events).
    - The collaborators imported from other modules of the extension or
      from libraries ([findResult], [parseArtifactLocation], [getOriginalDoc],
      [diffChars], [driftedRegionToSelection], the URI rebaser, [JSON]) are
      section variables. *)

From Stdlib Require Import List String Ascii ZArith Lia Bool Arith PeanoNat.
From Stdlib Require Import DecimalString.
Import ListNotations.

Set Implicit Arguments.

(** ** JavaScript values and built-ins used by the module *)

Module Js.

(** Exceptions that the pass can raise. *)
Inductive Exn : Type :=
| SyntaxError          (* JSON.parse *)
| RangeError           (* String.prototype.repeat *)
| IllegalArgument.     (* TextDocument.lineAt: "Illegal value for `line`" *)

Inductive Outcome (A : Type) : Type :=
| Returned (a : A)
| Threw (e : Exn).
Arguments Threw {A} e.

Definition bind {A B} (m : Outcome A) (k : A -> Outcome B) : Outcome B :=
  match m with
  | Returned a => k a
  | Threw e => Threw e
  end.

(** [xs.map(f)] with a callback that may throw: the first exception
    aborts the traversal. *)
Fixpoint mapM {A B} (f : A -> Outcome B) (xs : list A) : Outcome (list B) :=
  match xs with
  | [] => Returned []
  | x :: xs' =>
      bind (f x) (fun y => bind (mapM f xs') (fun ys => Returned (y :: ys)))
  end.

(** [xs.map((x, i) => f x i)], the index counted from [i0]. *)
Fixpoint mapiM {A B} (f : A -> nat -> Outcome B) (i0 : nat) (xs : list A)
  : Outcome (list B) :=
  match xs with
  | [] => Returned []
  | x :: xs' =>
      bind (f x i0)
        (fun y => bind (mapiM f (S i0) xs') (fun ys => Returned (y :: ys)))
  end.

(** The numbers the layout computes with: integers and [-Infinity]. *)
Inductive Num : Type :=
| NegInfinity
| Int (z : Z).

Definition max2 (a b : Num) : Num :=
  match a, b with
  | NegInfinity, _ => b
  | _, NegInfinity => a
  | Int x, Int y => Int (Z.max x y)
  end.

(** [Math.max(...xs)]; [Math.max()] is [-Infinity]. *)
Definition Math_max (xs : list Z) : Num :=
  fold_left (fun acc x => max2 acc (Int x)) xs NegInfinity.

Definition add (a : Num) (k : Z) : Num :=
  match a with
  | NegInfinity => NegInfinity
  | Int x => Int (x + k)
  end.

Definition sub (a : Num) (k : Z) : Num :=
  match a with
  | NegInfinity => NegInfinity
  | Int x => Int (x - k)
  end.

Fixpoint repeat_nat (s : string) (n : nat) : string :=
  match n with
  | O => EmptyString
  | S n' => String.append s (repeat_nat s n')
  end.

(** [s.repeat(count)]: a negative or infinite count is a RangeError. *)
Definition repeat (s : string) (count : Num) : Outcome string :=
  match count with
  | NegInfinity => Threw RangeError
  | Int z => if (z <? 0)%Z then Threw RangeError
             else Returned (repeat_nat s (Z.to_nat z))
  end.

(** What a filter callback can hand back: a boolean, or (for an [async]
    callback) a promise, carrying here the boolean it would settle to
    ([None] when it rejects). *)
Inductive Value : Type :=
| VBool (b : bool)
| VPromise (settled : option bool).

(** ToBoolean: every object, a promise included, is truthy. *)
Definition truthy (v : Value) : bool :=
  match v with
  | VBool b => b
  | VPromise _ => true
  end.

(** [xs.filter(cb)]: keeps the elements whose callback result is truthy. *)
Definition filter {A} (cb : A -> Value) (xs : list A) : list A :=
  List.filter (fun x => truthy (cb x)) xs.

(** ToBoolean of a string: only the empty string is falsy. *)
Definition truthy_string (s : string) : bool :=
  match s with
  | EmptyString => false
  | String _ _ => true
  end.

(** [xs.indexOf(x)] on an array of objects: position of the first element
    that is the same object, [-1] when there is none. *)
Fixpoint indexOf_from {A} (same : A -> A -> bool) (xs : list A) (x : A)
         (i : Z) : Z :=
  match xs with
  | [] => (-1)%Z
  | y :: ys => if same y x then i else indexOf_from same ys x (i + 1)%Z
  end.

Definition indexOf {A} (same : A -> A -> bool) (xs : list A) (x : A) : Z :=
  indexOf_from same xs x 0%Z.

(** Decimal rendering of an integer inside a template literal. *)
Definition toString (z : Z) : string :=
  NilZero.string_of_int (Z.to_int z).

(** [a === b] on values that are a string or [undefined]. *)
Definition strict_eq (a b : option string) : bool :=
  match a, b with
  | None, None => true
  | Some x, Some y => String.eqb x y
  | _, _ => false
  end.

End Js.

Import Js.

Notation "x <- m ;; k" := (Js.bind m (fun x => k))
  (at level 61, m at next level, right associativity).

(** ** The editor API (vscode) *)

Record Position : Type := { line : nat; character : nat }.

Record Range : Type := { start : Position; end_ : Position }.

Record TextLine : Type := { text : string; range : Range }.

(** A document: its URI and its lines (without line terminators). *)
Record TextDocument : Type := { uri : string; lines : list string }.

(** [doc.lineAt(n)]: the line's text and its range, from column 0 to the
    length of the text; a line number outside the document is rejected. *)
Definition lineAt (doc : TextDocument) (n : nat) : Outcome TextLine :=
  match nth_error (lines doc) n with
  | Some t =>
      Returned {| text := t;
                  range := {| start := {| line := n; character := 0 |};
                              end_ := {| line := n;
                                         character := String.length t |} |} |}
  | None => Threw IllegalArgument
  end.

(** [doc.getText()]: the lines joined by the line terminator. *)
Definition getText (doc : TextDocument) : string :=
  String.concat (String (ascii_of_nat 10) EmptyString) (lines doc).

Record TextEditor : Type :=
  { editorRef : nat;            (* identity of the editor object *)
    document : TextDocument;
    tabSize : Z }.              (* editor.options.tabSize *)

(** One callout: the anchor range, the hover message and the text rendered
    after the anchor. *)
Record DecorationOptions : Type :=
  { doRange : Range;
    hoverMessage : string;
    contentText : string }.

(** The two decoration types created by [activateDecorations], with the
    payload [setDecorations] receives for each. *)
Inductive Decorations : Type :=
| decorationTypeHighlight (ranges : list Range)
| decorationTypeCallout (callouts : list DecorationOptions).

(** A call [editor.setDecorations(type, payload)]. *)
Record Call : Type := setDecorations { onEditor : nat; payload : Decorations }.

(** A trace in which the two decoration types are only ever set as a pair
    on one editor, the highlights then the callouts. *)
Inductive SetTogether : list Call -> Prop :=
| together_nil : SetTogether []
| together_pair (e : nat) (rs : list Range) (cs : list DecorationOptions)
                (rest : list Call) :
    SetTogether rest ->
    SetTogether (setDecorations e (decorationTypeHighlight rs)
                 :: setDecorations e (decorationTypeCallout cs) :: rest).

(** ** End-of-line callout layout (the sub-scope for callouts) *)

Definition tab : ascii := ascii_of_nat 9.

(** [text.match(/\t/g)?.length ?? 0] *)
Fixpoint tabCount (s : string) : nat :=
  match s with
  | EmptyString => 0
  | String c s' => (if Ascii.eqb c tab then 1 else 0) + tabCount s'
  end.

(** The filler glyph of the padding, U+2504. *)
Definition filler : string := "┄".

Definition rangesEnd (currentDoc : TextDocument) (ranges : list Range)
  : Outcome (list Range) :=
  mapM (fun rng =>
          l <- lineAt currentDoc (line (end_ rng)) ;;
          let endPos := end_ (range l) in
          Returned {| start := endPos; end_ := endPos |})
       ranges.

Definition endAdj (currentDoc : TextDocument) (tabSize : Z) (rng : Range)
  : Outcome Z :=
  l <- lineAt currentDoc (line (end_ rng)) ;;
  let tabCharAdj := (Z.of_nat (tabCount (text l)) * (tabSize - 1))%Z in
  Returned (Z.of_nat (character (end_ rng)) + tabCharAdj)%Z.

Definition rangesEndAdj (currentDoc : TextDocument) (tabSize : Z)
           (rangesEnd : list Range) : Outcome (list Z) :=
  mapM (endAdj currentDoc tabSize) rangesEnd.

Definition maxRangeEnd (rangesEndAdj : list Z) : Num :=
  add (Math_max rangesEndAdj) 2.

(** The argument of [repeat] for the callout of index [i]. *)
Definition padding (rangesEndAdj : list Z) (i : nat) : Num :=
  sub (maxRangeEnd rangesEndAdj) (nth i rangesEndAdj 0%Z).

Definition decorCallouts (rangesEnd : list Range) (rangesEndAdj : list Z)
           (messages : list string) : Outcome (list DecorationOptions) :=
  mapiM (fun rng i =>
           dashes <- Js.repeat filler (padding rangesEndAdj i) ;;
           Returned {| doRange := rng;
                       hoverMessage := nth i messages EmptyString;
                       contentText :=
                         String.append " "
                           (String.append dashes
                              (String.append " "
                                 (nth i messages EmptyString))) |})
        0 rangesEnd.

(** The callout of index [i] once the padding is known to be finite. *)
Definition calloutAt (adj : list Z) (msgs : list string) (rng : Range) (i : nat)
  : DecorationOptions :=
  let k := match padding adj i with Int k => k | NegInfinity => 0%Z end in
  {| doRange := rng;
     hoverMessage := nth i msgs EmptyString;
     contentText :=
       String.append " "
         (String.append (repeat_nat filler (Z.to_nat k))
            (String.append " " (nth i msgs EmptyString))) |}.

(** The anchor of a range: the end of the line its end is on. *)
Definition anchorOf (doc : TextDocument) (rng : Range) : Range :=
  let n := line (end_ rng) in
  let endPos := {| line := n;
                   character := String.length (nth n (lines doc) EmptyString) |} in
  {| start := endPos; end_ := endPos |}.

Definition adjOf (doc : TextDocument) (tabSize : Z) (rng : Range) : Z :=
  let t := nth (line (end_ rng)) (lines doc) EmptyString in
  (Z.of_nat (String.length t) + Z.of_nat (tabCount t) * (tabSize - 1))%Z.

(** The glyphs of a string held as UTF-8 bytes: the bytes that do not
    continue a character (those outside [128, 192)). *)
Definition continues (c : ascii) : bool :=
  let n := nat_of_ascii c in Nat.leb 128 n && Nat.ltb n 192.

Fixpoint glyphs (s : string) : nat :=
  match s with
  | EmptyString => 0
  | String c s' => (if continues c then 0 else 1) + glyphs s'
  end.

(** The visual column at which the message of a callout starts when the
    callout is rendered after the visual column [col] of the end of its
    line: [col] plus the glyphs of its text that precede the message. *)
Definition messageColumn (col : Z) (c : DecorationOptions) : Z :=
  (col + Z.of_nat (glyphs (contentText c))
   - Z.of_nat (glyphs (hoverMessage c)))%Z.

(** ** The result model (sarif) *)

Record Message : Type := { msgText : option string }.

Section Decorations.

(** Types declared in modules that are not part of this file. *)
Context {Log ResultId ArtifactLocation Region Change : Type}.

Record PhysicalLocation : Type :=
  { artifactLocation : option ArtifactLocation;
    region : option Region }.

Record Location : Type :=
  { physicalLocation : option PhysicalLocation;
    message : option Message }.

(** A thread-flow location; [ref] is the identity of the object. *)
Record ThreadFlowLocation : Type :=
  { ref : nat;
    location : option Location }.

Record ThreadFlow : Type := { locations : option (list ThreadFlowLocation) }.

Record CodeFlow : Type := { threadFlows : option (list ThreadFlow) }.

Record Result : Type :=
  { _id : ResultId;
    codeFlows : option (list CodeFlow) }.

Record AnalysisInfo : Type := { commit_sha : string }.

Record Store : Type :=
  { logs : list Log;
    analysisInfo : option AnalysisInfo }.

(** A diagnostic; those published for a SARIF result carry it. *)
Record ResultDiagnostic : Type := { result : option Result }.

Record CodeActionContext : Type :=
  { only : option string;
    diagnostics : list ResultDiagnostic }.

(** Collaborators. *)
Variable JSON_stringify : ResultId -> string.
Variable JSON_parse : string -> Outcome ResultId.
Variable findResult : list Log -> ResultId -> option Result.
(** First component of the tuple [parseArtifactLocation] returns. *)
Variable parseArtifactLocation :
  Result -> option ArtifactLocation -> option string.
Variable translateLocalToArtifact : string -> option string.
Variable getOriginalDoc : option string -> TextDocument -> option TextDocument.
Variable diffChars : string -> string -> list Change.
Variable driftedRegionToSelection :
  list Change -> TextDocument -> option Region -> option TextDocument -> Range.

(** ** Pinning the selected result *)

(** [provideCodeActions]: the value returned ([None] is [undefined],
    [Some []] the empty action list) and the new content of the box
    [activeResultId]. *)
Definition provideCodeActions (activeResultId : option string)
           (context : CodeActionContext)
  : option (list unit) * option string :=
  match only context with
  | Some _ => (None, activeResultId)
  | None =>
      match nth_error (diagnostics context) 0 with
      | None => (None, activeResultId)
      | Some diagnostic =>
          match result diagnostic with
          | None => (None, activeResultId)
          | Some res => (Some [], Some (JSON_stringify (_id res)))
          end
      end
  end.

(** [context.diagnostics[0]?.result]: the result a selection event carries. *)
Definition carriedResult (context : CodeActionContext) : option Result :=
  match nth_error (diagnostics context) 0 with
  | Some diagnostic => result diagnostic
  | None => None
  end.

(** ** The update pass *)

(** [result.codeFlows?.[0]?.threadFlows?.[0]?.locations ?? []] *)
Definition locationsOf (res : Result) : list ThreadFlowLocation :=
  match codeFlows res with
  | Some (cf :: _) =>
      match threadFlows cf with
      | Some (tf :: _) =>
          match locations tf with
          | Some ls => ls
          | None => []
          end
      | _ => []
      end
  | _ => []
  end.

(** [tfl.location?.physicalLocation?.artifactLocation] *)
Definition artifactLocationOf (tfl : ThreadFlowLocation)
  : option ArtifactLocation :=
  match location tfl with
  | Some l => match physicalLocation l with
              | Some p => artifactLocation p
              | None => None
              end
  | None => None
  end.

(** [tfl.location?.physicalLocation?.region] *)
Definition regionOf (tfl : ThreadFlowLocation) : option Region :=
  match location tfl with
  | Some l => match physicalLocation l with
              | Some p => region p
              | None => None
              end
  | None => None
  end.

(** [tfl.location?.message?.text] *)
Definition textOf (tfl : ThreadFlowLocation) : option string :=
  match location tfl with
  | Some l => match message l with
              | Some m => msgText m
              | None => None
              end
  | None => None
  end.

(** What the promise returned by the filter callback settles to: whether
    the artifact of the location is the document of the editor. *)
Definition inCurrentDoc (res : Result) (currentDoc : TextDocument)
           (tfl : ThreadFlowLocation) : bool :=
  let artifactUriString := parseArtifactLocation res (artifactLocationOf tfl) in
  strict_eq (translateLocalToArtifact (uri currentDoc)) artifactUriString.

(** The callback passed to [locations.filter]: an [async] arrow function,
    so what [filter] sees is the promise. *)
Definition filterCallback (res : Result) (currentDoc : TextDocument)
           (tfl : ThreadFlowLocation) : Value :=
  VPromise (Some (inCurrentDoc res currentDoc tfl)).

Definition locationsInDoc (res : Result) (currentDoc : TextDocument)
           (locations : list ThreadFlowLocation) : list ThreadFlowLocation :=
  Js.filter (filterCallback res currentDoc) locations.

(** Object identity of two thread-flow locations. *)
Definition sameObject (a b : ThreadFlowLocation) : bool :=
  Nat.eqb (ref a) (ref b).

Definition stepMessage (locations : list ThreadFlowLocation)
           (tfl : ThreadFlowLocation) : string :=
  let suffix :=
    match textOf tfl with
    | Some t => if truthy_string t then String.append ": " t else EmptyString
    | None => EmptyString
    end in
  String.append "Step "
    (String.append (toString (indexOf sameObject locations tfl + 1)) suffix).

Definition messages (locations locationsInDoc : list ThreadFlowLocation)
  : list string :=
  map (stepMessage locations) locationsInDoc.

Definition diffBlocks (originalDoc : option TextDocument)
           (currentDoc : TextDocument) : list Change :=
  match originalDoc with
  | Some o => diffChars (getText o) (getText currentDoc)
  | None => []
  end.

Definition rangesOf (st : Store) (currentDoc : TextDocument)
           (locationsInDoc : list ThreadFlowLocation) : list Range :=
  let originalDoc :=
    getOriginalDoc (option_map commit_sha (analysisInfo st)) currentDoc in
  map (fun tfl =>
         driftedRegionToSelection (diffBlocks originalDoc currentDoc)
           currentDoc (regionOf tfl) originalDoc)
      locationsInDoc.

(** The callouts of one editor (the sub-scope of the loop body). *)
Definition calloutsOf (editor : TextEditor) (ranges : list Range)
           (messages : list string) : Outcome (list DecorationOptions) :=
  let currentDoc := document editor in
  rangesEnd <- rangesEnd currentDoc ranges ;;
  rangesEndAdj <- rangesEndAdj currentDoc (tabSize editor) rangesEnd ;;
  decorCallouts rangesEnd rangesEndAdj messages.

(** The body of the loop over the visible editors: the calls issued and
    how the body ended. *)
Definition updateEditor (st : Store) (res : Result) (editor : TextEditor)
  : list Call * Outcome unit :=
  let currentDoc := document editor in
  let locations := locationsOf res in
  let locationsInDoc := locationsInDoc res currentDoc locations in
  let ranges := rangesOf st currentDoc locationsInDoc in
  let highlight :=
    setDecorations (editorRef editor) (decorationTypeHighlight ranges) in
  match calloutsOf editor ranges (messages locations locationsInDoc) with
  | Threw e => ([highlight], Threw e)
  | Returned decorCallouts =>
      ([highlight;
        setDecorations (editorRef editor)
          (decorationTypeCallout decorCallouts)],
       Returned tt)
  end.

Fixpoint updateEditors (st : Store) (res : Result) (editors : list TextEditor)
  : list Call * Outcome unit :=
  match editors with
  | [] => ([], Returned tt)
  | editor :: rest =>
      match updateEditor st res editor with
      | (calls, Threw e) => (calls, Threw e)
      | (calls, Returned _) =>
          let (calls', out) := updateEditors st res rest in
          (calls ++ calls', out)
      end
  end.

(** [update]: the calls it issues and how it ends. *)
Definition update (activeResultId : option string) (st : Store)
           (visibleTextEditors : list TextEditor) : list Call * Outcome unit :=
  match activeResultId with
  | None => ([], Returned tt)
  | Some resultId =>
      if negb (truthy_string resultId) then ([], Returned tt)
      else
        match JSON_parse resultId with
        | Threw e => ([], Threw e)
        | Returned id =>
            match findResult (logs st) id with
            | None => ([], Returned tt)
            | Some res => updateEditors st res visibleTextEditors
            end
        end
  end.

(** The observer of [store.logs], run on a splice that removed [removed]. *)
Definition onLogsChange (removed : list Log)
           (visibleTextEditors : list TextEditor) : list Call :=
  match removed with
  | [] => []
  | _ :: _ =>
      flat_map (fun editor =>
                  [setDecorations (editorRef editor) (decorationTypeCallout []);
                   setDecorations (editorRef editor)
                     (decorationTypeHighlight [])])
               visibleTextEditors
  end.

(** ** The extension as an event-driven machine *)

(** What an editor currently shows. *)
Record Rendered : Type :=
  { highlights : list Range;
    callouts : list DecorationOptions }.

Definition cleared : Rendered := {| highlights := []; callouts := [] |}.

(** [setDecorations] replaces the decorations of one type on one editor. *)
Definition applyCall (shown : nat -> Rendered) (c : Call) : nat -> Rendered :=
  fun e =>
    if Nat.eqb e (onEditor c) then
      match payload c with
      | decorationTypeHighlight rs =>
          {| highlights := rs; callouts := callouts (shown e) |}
      | decorationTypeCallout cs =>
          {| highlights := highlights (shown e); callouts := cs |}
      end
    else shown e.

Definition applyCalls (shown : nat -> Rendered) (cs : list Call)
  : nat -> Rendered :=
  fold_left applyCall cs shown.

Record State : Type :=
  { activeResultId : option string;
    store : Store;
    visibleTextEditors : list TextEditor;
    rendered : nat -> Rendered }.

(** An update pass run on a state (an exception ends the pass; what was
    set before it stays). *)
Definition runUpdate (s : State) : State :=
  let (calls, _) := update (activeResultId s) (store s) (visibleTextEditors s) in
  {| activeResultId := activeResultId s;
     store := store s;
     visibleTextEditors := visibleTextEditors s;
     rendered := applyCalls (rendered s) calls |}.

Inductive Event : Type :=
| SelectionEvent (context : CodeActionContext)
| VisibleEditorsChanged (editors : list TextEditor)
| LogsSpliced (index deleteCount : nat) (added : list Log).

Definition option_string_eqb (a b : option string) : bool :=
  match a, b with
  | None, None => true
  | Some x, Some y => String.eqb x y
  | _, _ => false
  end.

(** [logs.splice(index, deleteCount, ...added)]: the removed items and the
    array afterwards. *)
Definition splice (ls : list Log) (index deleteCount : nat) (added : list Log)
  : list Log * list Log :=
  (firstn deleteCount (skipn index ls),
   firstn index ls ++ added ++ skipn deleteCount (skipn index ls)).

(** One event: the subscriptions registered at the end of
    [activateDecorations].  The box notifies its observer only when its
    value changes. *)
Definition step (s : State) (ev : Event) : State :=
  match ev with
  | SelectionEvent context =>
      let (_, box) := provideCodeActions (activeResultId s) context in
      let s' := {| activeResultId := box;
                   store := store s;
                   visibleTextEditors := visibleTextEditors s;
                   rendered := rendered s |} in
      if option_string_eqb box (activeResultId s) then s' else runUpdate s'
  | VisibleEditorsChanged editors =>
      runUpdate {| activeResultId := activeResultId s;
                   store := store s;
                   visibleTextEditors := editors;
                   rendered := rendered s |}
  | LogsSpliced index deleteCount added =>
      let (removed, logs') := splice (logs (store s)) index deleteCount added in
      {| activeResultId := activeResultId s;
         store := {| logs := logs'; analysisInfo := analysisInfo (store s) |};
         visibleTextEditors := visibleTextEditors s;
         rendered :=
           applyCalls (rendered s)
             (onLogsChange removed (visibleTextEditors s)) |}
  end.

(** The machine run over a sequence of events, oldest first. *)
Definition run (s : State) (evs : list Event) : State :=
  fold_left step evs s.

End Decorations.

(** The payload of the last call of a trace that set the highlights of
    editor [e], if any; likewise for the callouts. *)
Fixpoint lastHighlights (cs : list Call) (e : nat) : option (list Range) :=
  match cs with
  | [] => None
  | c :: cs' =>
      match lastHighlights cs' e with
      | Some rs => Some rs
      | None =>
          if Nat.eqb e (onEditor c) then
            match payload c with
            | decorationTypeHighlight rs => Some rs
            | decorationTypeCallout _ => None
            end
          else None
      end
  end.

Fixpoint lastCallouts (cs : list Call) (e : nat)
  : option (list DecorationOptions) :=
  match cs with
  | [] => None
  | c :: cs' =>
      match lastCallouts cs' e with
      | Some ds => Some ds
      | None =>
          if Nat.eqb e (onEditor c) then
            match payload c with
            | decorationTypeCallout ds => Some ds
            | decorationTypeHighlight _ => None
            end
          else None
      end
  end.

(** ** The selection of a region, as the specification describes it *)

Section RegionDriftProjector.

Context {Change : Type}.

(** The Region Drift Projector of section 4.2: the current range of a
    baseline region, or nothing when the region vanished. *)
Variable project : list Change -> Range -> option Range.

(** The selection handed back when there is no range to give. *)
Variable placeholder : Range.

(** Modelled from the spec: [driftedRegionToSelection] is imported from
    [./regionToSelection], which is not among the sources.  Section 4.2:
    with a baseline snapshot the region goes through the Projector; "if no
    baseline snapshot exists at all (e.g. revision unavailable), the
    Projector is bypassed entirely and the baseline region is used as-is
    verbatim on the current document".  A region is a line/column range in
    baseline coordinates (section 3). *)
Definition driftedRegionToSelection_spec (diffBlocks : list Change)
           (currentDoc : TextDocument) (region : option Range)
           (originalDoc : option TextDocument) : Range :=
  match region with
  | None => placeholder
  | Some baseline =>
      match originalDoc with
      | None => baseline
      | Some _ =>
          match project diffBlocks baseline with
          | Some current => current
          | None => placeholder
          end
      end
  end.

End RegionDriftProjector.

(** ** A concrete workspace *)

Module Demo.

Local Open Scope string_scope.

Definition ResultId : Type := nat.
Definition ArtifactLocation : Type := string.
Definition Change : Type := string.
Definition DResult : Type := @Result ResultId ArtifactLocation Range.
Definition Log : Type := list DResult.

Definition JSON_stringify (id : ResultId) : string :=
  NilEmpty.string_of_uint (Nat.to_uint id).

Definition JSON_parse (s : string) : Outcome ResultId :=
  match NilEmpty.uint_of_string s with
  | Some u => Returned (Nat.of_uint u)
  | None => Threw SyntaxError
  end.

Definition findResult (ls : list Log) (id : ResultId) : option DResult :=
  List.find (fun r => Nat.eqb (_id r) id) (List.concat ls).

Definition parseArtifactLocation (r : DResult) (a : option ArtifactLocation)
  : option string := a.

Definition translateLocalToArtifact (u : string) : option string := Some u.

Definition noOriginalDoc (sha : option string) (d : TextDocument)
  : option TextDocument := None.

Definition diffChars (a b : string) : list Change := [].

Definition origin : Range :=
  {| start := {| line := 0; character := 0 |};
     end_ := {| line := 0; character := 0 |} |}.

Definition driftedRegionToSelection
  : list Change -> TextDocument -> option Range -> option TextDocument -> Range :=
  driftedRegionToSelection_spec (fun _ r => Some r) origin.

Definition span (l c1 c2 : nat) : Range :=
  {| start := {| line := l; character := c1 |};
     end_ := {| line := l; character := c2 |} |}.

Definition tfl (r : nat) (artifact : string) (rg : Range) (msg : option string)
  : @ThreadFlowLocation ArtifactLocation Range :=
  {| ref := r;
     location :=
       Some {| physicalLocation :=
                 Some {| artifactLocation := Some artifact;
                         region := Some rg |};
               message := Some {| msgText := msg |} |} |}.

Definition stepA : @ThreadFlowLocation ArtifactLocation Range :=
  tfl 0 "a.ts" (span 0 4 7) (Some "source").

Definition stepB : @ThreadFlowLocation ArtifactLocation Range :=
  tfl 1 "b.ts" (span 1 0 3) None.

(** A result whose thread flow visits [a.ts], then [b.ts]. *)
Definition result42 : DResult :=
  {| _id := 42;
     codeFlows :=
       Some [ {| threadFlows :=
                   Some [ {| locations := Some [stepA; stepB] |} ] |} ] |}.

Definition result7 : DResult := {| _id := 7; codeFlows := None |}.

Definition docA : TextDocument :=
  {| uri := "a.ts"; lines := ["foo(bar)"; "baz"] |}.

(** A document whose first line holds two tab characters. *)
Definition docTabs : TextDocument :=
  {| uri := "t.ts";
     lines := [String tab (String.append "if (x)" (String tab "{")); "}"] |}.

Definition editorA : TextEditor :=
  {| editorRef := 1; document := docA; tabSize := 4 |}.

Definition theStore : @Store Log :=
  {| logs := [[result42]; [result7]]; analysisInfo := None |}.

Definition nothingShown : nat -> Rendered := fun _ => cleared.

Definition initial : @State Log :=
  {| activeResultId := None;
     store := theStore;
     visibleTextEditors := [editorA];
     rendered := nothingShown |}.

Definition select (r : DResult) : @CodeActionContext ResultId ArtifactLocation Range :=
  {| only := None; diagnostics := [ {| result := Some r |} ] |}.

(** A selection that carries no result: a diagnostic of another extension. *)
Definition selectNothing : @CodeActionContext ResultId ArtifactLocation Range :=
  {| only := None; diagnostics := [ {| result := None |} ] |}.

Definition update : option string -> @Store Log -> list TextEditor
                    -> list Call * Outcome unit :=
  update JSON_parse findResult parseArtifactLocation translateLocalToArtifact
    noOriginalDoc diffChars driftedRegionToSelection.

Definition runUpdate : @State Log -> @State Log :=
  runUpdate JSON_parse findResult parseArtifactLocation translateLocalToArtifact
    noOriginalDoc diffChars driftedRegionToSelection.

Definition step : @State Log -> Event -> @State Log :=
  step JSON_stringify JSON_parse findResult parseArtifactLocation
    translateLocalToArtifact noOriginalDoc diffChars driftedRegionToSelection.

(** Result 42 pinned and rendered on [a.ts]. *)
Definition pinned42 : @State Log := step initial (SelectionEvent (select result42)).

(** The same editors after the log of result 42 went away while a pass
    that had resolved it was still running: its decorations were applied
    after the removal, and the pin now dangles. *)
Definition stale : @State Log :=
  {| activeResultId := Some "42";
     store := {| logs := [[result7]]; analysisInfo := None |};
     visibleTextEditors := [editorA];
     rendered := rendered pinned42 |}.

(** An editor on a document of one line: the second step of result 42, on
    line 1, has no line there. *)
Definition docShort : TextDocument :=
  {| uri := "short.ts"; lines := ["foo(bar)"] |}.

Definition editorShort : TextEditor :=
  {| editorRef := 2; document := docShort; tabSize := 4 |}.

Definition editorTabs : TextEditor :=
  {| editorRef := 3; document := docTabs; tabSize := 4 |}.

(** Result 7, which has no code flow, pinned while [a.ts] shows the steps
    of result 42. *)
Definition pinned7 : @State Log :=
  {| activeResultId := Some "7";
     store := theStore;
     visibleTextEditors := [editorA];
     rendered := rendered pinned42 |}.

(** A document whose two lines are 10 and 14 characters long, without
    tabs. *)
Definition docCols : TextDocument :=
  {| uri := "cols.ts"; lines := ["0123456789"; "01234567890123"] |}.

Definition editorCols : TextEditor :=
  {| editorRef := 4; document := docCols; tabSize := 4 |}.

(** A line with a tab before and a tab after the character [x]. *)
Definition docTwoTabs : TextDocument :=
  {| uri := "tabs.ts";
     lines := [String tab (String.append "x" (String tab "y"))] |}.





(** Closing the other log, the one of result 7. *)
Definition closeOtherLog : @Event Log ResultId ArtifactLocation Range :=
  LogsSpliced 1 1 [].

End Demo.

(** * Properties *)

(** ** Built-ins *)

Lemma mapM_returns {A B} (f : A -> Outcome B) (g : A -> B) (xs : list A) :
  (forall x, In x xs -> f x = Returned (g x)) ->
  mapM f xs = Returned (map g xs).
Proof.
  induction xs as [|x xs IH]; intros Hf; simpl.
  - reflexivity.
  - rewrite (Hf x (or_introl eq_refl)). simpl.
    rewrite IH by (intros y Hy; apply Hf; now right).
    reflexivity.
Qed.

Lemma mapiM_returns {A B} (f : A -> nat -> Outcome B) (g : A -> nat -> B)
      (xs : list A) :
  forall i0,
    (forall j x, nth_error xs j = Some x -> f x (i0 + j) = Returned (g x (i0 + j))) ->
    exists ys,
      mapiM f i0 xs = Returned ys /\
      List.length ys = List.length xs /\
      forall j x, nth_error xs j = Some x -> nth_error ys j = Some (g x (i0 + j)).
Proof.
  induction xs as [|x xs IH]; intros i0 Hf; simpl.
  - exists []. repeat split; auto. intros [|j] y; discriminate.
  - pose proof (Hf 0 x eq_refl) as H0. rewrite Nat.add_0_r in H0.
    rewrite H0. simpl.
    destruct (IH (S i0)) as (ys & Hys & Hlen & Hnth).
    { intros j y Hj. specialize (Hf (S j) y Hj).
      now rewrite Nat.add_succ_r in Hf. }
    rewrite Hys. simpl. exists (g x i0 :: ys). repeat split.
    + simpl. now rewrite Hlen.
    + intros [|j] y Hj; simpl in *.
      * inversion Hj; subst. now rewrite Nat.add_0_r.
      * rewrite (Hnth j y Hj). now rewrite Nat.add_succ_r.
Qed.

Lemma Math_max_from (xs : list Z) :
  forall a, exists m,
    fold_left (fun acc x => max2 acc (Int x)) xs (Int a) = Int m /\
    (m = a \/ In m xs) /\ (a <= m)%Z /\ (forall x, In x xs -> (x <= m)%Z).
Proof.
  induction xs as [|x xs IH]; intros a; simpl.
  - exists a. split; [reflexivity|]. split; [now left|]. split; [lia|].
    intros x [].
  - destruct (IH (Z.max a x)) as (m & Hm & Hin & Hle & Hall).
    exists m. split; [exact Hm|]. split; [|split].
    + destruct Hin as [->|Hin]; [|now right; right].
      destruct (Z.max_spec a x) as [[_ ->]|[_ ->]]; auto.
    + lia.
    + intros y [<-|Hy]; [lia|auto].
Qed.

(** [Math.max] of a non-empty list is its greatest element. *)
Lemma Math_max_spec (xs : list Z) :
  xs <> [] ->
  exists m, Math_max xs = Int m /\ In m xs /\ (forall x, In x xs -> (x <= m)%Z).
Proof.
  destruct xs as [|x xs]; [congruence|intros _].
  unfold Math_max. simpl.
  destruct (Math_max_from xs x) as (m & Hm & Hin & Hle & Hall).
  exists m. split; [exact Hm|]. split.
  - destruct Hin as [->|Hin]; [now left|now right].
  - intros y [<-|Hy]; auto.
Qed.

Lemma padding_spec (adj : list Z) (i : nat) :
  i < List.length adj ->
  exists m, Math_max adj = Int m /\ In m adj /\
            (forall x, In x adj -> (x <= m)%Z) /\
            padding adj i = Int (m + 2 - nth i adj 0%Z) /\
            (2 <= m + 2 - nth i adj 0%Z)%Z.
Proof.
  intros Hi.
  destruct (Math_max_spec (xs := adj)) as (m & Hm & Hin & Hall).
  { destruct adj; simpl in *; [lia|congruence]. }
  exists m. repeat split; auto.
  - unfold padding, maxRangeEnd. rewrite Hm. reflexivity.
  - pose proof (Hall _ (nth_In adj 0%Z Hi)). lia.
Qed.

Lemma repeat_returns (s : string) (k : Z) :
  (0 <= k)%Z -> Js.repeat s (Int k) = Returned (repeat_nat s (Z.to_nat k)).
Proof.
  intros Hk. unfold Js.repeat.
  destruct (Z.ltb_spec k 0); [lia|reflexivity].
Qed.

Lemma decorCallouts_returns (re : list Range) (adj : list Z) (msgs : list string) :
  List.length re <= List.length adj ->
  exists ds,
    decorCallouts re adj msgs = Returned ds /\
    List.length ds = List.length re /\
    forall i rng, nth_error re i = Some rng ->
                  nth_error ds i = Some (calloutAt adj msgs rng i).
Proof.
  intros Hlen. unfold decorCallouts.
  destruct (mapiM_returns
              (fun rng i =>
                 dashes <- Js.repeat filler (padding adj i) ;;
                 Returned {| doRange := rng;
                             hoverMessage := nth i msgs EmptyString;
                             contentText :=
                               String.append " "
                                 (String.append dashes
                                    (String.append " "
                                       (nth i msgs EmptyString))) |})
              (calloutAt adj msgs) re 0) as (ds & Hds & Hl & Hnth).
  - intros j rng Hj. simpl.
    assert (Hlt : j < List.length adj).
    { assert (j < List.length re) by (apply nth_error_Some; congruence). lia. }
    destruct (padding_spec adj Hlt) as (m & _ & _ & _ & Hp & Hge).
    unfold calloutAt. rewrite Hp. rewrite repeat_returns by lia. reflexivity.
  - exists ds. repeat split; auto.
Qed.

(** ** The callout layout *)

Lemma substring_whole (s : string) : substring 0 (String.length s) s = s.
Proof. induction s as [|c s IH]; simpl; [reflexivity|now rewrite IH]. Qed.

Lemma lineAt_returns (doc : TextDocument) (n : nat) :
  n < List.length (lines doc) ->
  exists t, nth_error (lines doc) n = Some t /\
            lineAt doc n =
              Returned {| text := t;
                          range := {| start := {| line := n; character := 0 |};
                                      end_ := {| line := n;
                                                 character := String.length t |} |} |}.
Proof.
  intros Hn. unfold lineAt.
  destruct (nth_error (lines doc) n) as [t|] eqn:E.
  - exists t. split; reflexivity.
  - apply nth_error_None in E. lia.
Qed.

Lemma rangesEnd_returns (doc : TextDocument) (ranges : list Range) :
  (forall rng, In rng ranges -> line (end_ rng) < List.length (lines doc)) ->
  rangesEnd doc ranges = Returned (map (anchorOf doc) ranges).
Proof.
  intros Hin. unfold rangesEnd. apply mapM_returns.
  intros rng Hr. destruct (lineAt_returns doc (Hin rng Hr)) as (t & Ht & ->).
  simpl. unfold anchorOf. now rewrite (nth_error_nth _ _ _ Ht).
Qed.

Lemma rangesEndAdj_returns (doc : TextDocument) (tabSize : Z)
      (ranges : list Range) :
  (forall rng, In rng ranges -> line (end_ rng) < List.length (lines doc)) ->
  rangesEndAdj doc tabSize (map (anchorOf doc) ranges)
  = Returned (map (adjOf doc tabSize) ranges).
Proof.
  intros Hin. unfold rangesEndAdj.
  rewrite <- (map_map (anchorOf doc)
                (fun a => (Z.of_nat (character (end_ a))
                           + Z.of_nat (tabCount (nth (line (end_ a)) (lines doc)
                                                     EmptyString))
                             * (tabSize - 1))%Z)).
  apply mapM_returns. intros a Ha. apply in_map_iff in Ha.
  destruct Ha as (rng & <- & Hr).
  unfold endAdj. simpl.
  destruct (lineAt_returns doc (Hin rng Hr)) as (t & Ht & ->).
  simpl. now rewrite (nth_error_nth _ _ _ Ht).
Qed.

(** With every range ending on a line of the document, the callouts of an
    editor are computed without an exception. *)
Lemma calloutsOf_returns (editor : TextEditor) (ranges : list Range)
      (msgs : list string) :
  (forall rng, In rng ranges ->
               line (end_ rng) < List.length (lines (document editor))) ->
  exists ds,
    calloutsOf editor ranges msgs = Returned ds /\
    List.length ds = List.length ranges /\
    forall i rng, nth_error ranges i = Some rng ->
      nth_error ds i =
        Some (calloutAt (map (adjOf (document editor) (tabSize editor)) ranges)
                msgs (anchorOf (document editor) rng) i).
Proof.
  intros Hin. unfold calloutsOf.
  rewrite (rangesEnd_returns _ _ Hin). simpl.
  rewrite (rangesEndAdj_returns _ (tabSize editor) _ Hin). simpl.
  destruct (decorCallouts_returns
              (map (anchorOf (document editor)) ranges)
              (map (adjOf (document editor) (tabSize editor)) ranges) msgs)
    as (ds & Hds & Hlen & Hnth).
  { rewrite !length_map. lia. }
  exists ds. split; [exact Hds|]. split.
  - now rewrite Hlen, length_map.
  - intros i rng Hi. apply Hnth. now rewrite nth_error_map, Hi.
Qed.

(** An exception of [mapM] is one of its callback. *)
Lemma mapM_threw {A B} (f : A -> Outcome B) (xs : list A) (e : Exn) :
  mapM f xs = Threw e -> exists x, In x xs /\ f x = Threw e.
Proof.
  induction xs as [|x xs IH]; simpl; [discriminate|].
  destruct (f x) as [y|e'] eqn:Ex; simpl.
  - destruct (mapM f xs) as [ys|e''] eqn:Em; simpl; [discriminate|].
    intros H. injection H as ->. destruct (IH eq_refl) as (x' & Hx & Hf).
    exists x'. split; [now right|exact Hf].
  - intros H. injection H as ->. exists x. split; [now left|exact Ex].
Qed.

Lemma mapM_length {A B} (f : A -> Outcome B) (xs : list A) (ys : list B) :
  mapM f xs = Returned ys -> List.length ys = List.length xs.
Proof.
  revert ys. induction xs as [|x xs IH]; simpl; intros ys.
  - intros H. injection H as <-. reflexivity.
  - destruct (f x) as [y|e]; simpl; [|discriminate].
    destruct (mapM f xs) as [zs|e]; simpl; [|discriminate].
    intros H. injection H as <-. simpl. now rewrite (IH zs eq_refl).
Qed.

Lemma lineAt_threw (doc : TextDocument) (n : nat) (e : Exn) :
  lineAt doc n = Threw e -> e = IllegalArgument.
Proof.
  unfold lineAt. destruct (nth_error (lines doc) n); [discriminate|].
  intros H. now injection H.
Qed.

(** The only exception the callouts of an editor can end with is the one of
    [lineAt]; [repeat] is never given a count it rejects. *)
Lemma calloutsOf_threw (editor : TextEditor) (ranges : list Range)
      (msgs : list string) (e : Exn) :
  calloutsOf editor ranges msgs = Threw e -> e = IllegalArgument.
Proof.
  unfold calloutsOf.
  destruct (rangesEnd (document editor) ranges) as [re|e1] eqn:Ere; simpl.
  - destruct (rangesEndAdj (document editor) (tabSize editor) re)
      as [adj|e2] eqn:Eadj; simpl.
    + destruct (decorCallouts_returns re adj msgs) as (ds & -> & _).
      { apply mapM_length in Eadj. lia. }
      discriminate.
    + intros H. injection H as ->.
      destruct (mapM_threw _ _ Eadj) as (a & _ & Ha).
      unfold endAdj in Ha.
      destruct (lineAt (document editor) (line (end_ a))) eqn:El;
        simpl in Ha; [discriminate|].
      injection Ha as ->. eapply lineAt_threw; eassumption.
  - intros H. injection H as ->.
    destruct (mapM_threw _ _ Ere) as (a & _ & Ha).
    destruct (lineAt (document editor) (line (end_ a))) eqn:El;
      simpl in Ha; [discriminate|].
    injection Ha as ->. eapply lineAt_threw; eassumption.
Qed.

(** C10. In an editor pass that renders at least one range, the count given
    to [repeat] for every callout (the greatest adjusted end column plus 2,
    minus the adjusted end column of that callout) is an integer that is at
    least 2, so [repeat] returns; building the callouts never ends with a
    RangeError. *)
Theorem padding_repeat_count_at_least_two (adj : list Z) (i : nat) :
  i < List.length adj ->
  (exists k, padding adj i = Int k /\ (2 <= k)%Z /\
             Js.repeat filler (padding adj i)
             = Returned (repeat_nat filler (Z.to_nat k))) /\
  (forall re msgs, List.length re = List.length adj ->
                   exists ds, decorCallouts re adj msgs = Returned ds) /\
  (forall editor ranges msgs,
      calloutsOf editor ranges msgs <> Threw RangeError).
Proof.
  intros Hi. split; [|split].
  - destruct (padding_spec adj Hi) as (m & _ & _ & _ & Hp & Hge).
    exists (m + 2 - nth i adj 0)%Z. split; [exact Hp|]. split; [exact Hge|].
    rewrite Hp. apply repeat_returns. lia.
  - intros re msgs Hlen.
    destruct (decorCallouts_returns re adj msgs) as (ds & Hds & _); [lia|].
    now exists ds.
  - intros editor ranges msgs H. apply calloutsOf_threw in H. discriminate.
Qed.

Lemma padding_repeat_count_at_least_two_witness :
  exists k, padding [10; 14]%Z 1 = Int k /\ (2 <= k)%Z /\
            Js.repeat filler (padding [10; 14]%Z 1)
            = Returned (repeat_nat filler (Z.to_nat k)).
Proof.
  apply (@padding_repeat_count_at_least_two [10; 14]%Z 1). simpl. lia.
Defined.

(** On that line of 9 characters, two of them tabs, with tabs 4 columns
    wide, the adjusted end column is 9 + 2 * 3. *)
Example visual_end_column_tabs :
  rangesEndAdj Demo.docTabs 4 [anchorOf Demo.docTabs (Demo.span 0 1 7)]
  = Returned [15%Z].
Proof. reflexivity. Qed.

(** ** The pinned result and the passes *)

Section Facts.

Context {Log ResultId ArtifactLocation Region Change : Type}.
Variable JSON_stringify : ResultId -> string.
Variable JSON_parse : string -> Outcome ResultId.
Variable findResult :
  list Log -> ResultId -> option (@Result ResultId ArtifactLocation Region).
Variable parseArtifactLocation :
  @Result ResultId ArtifactLocation Region -> option ArtifactLocation
  -> option string.
Variable translateLocalToArtifact : string -> option string.
Variable getOriginalDoc : option string -> TextDocument -> option TextDocument.
Variable diffChars : string -> string -> list Change.
Variable driftedRegionToSelection :
  list Change -> TextDocument -> option Region -> option TextDocument -> Range.

Local Abbreviation TFL := (@ThreadFlowLocation ArtifactLocation Region).
Local Abbreviation locationsInDoc' :=
  (locationsInDoc parseArtifactLocation translateLocalToArtifact).
Local Abbreviation rangesOf' :=
  (@rangesOf Log ArtifactLocation Region Change getOriginalDoc diffChars
             driftedRegionToSelection).
Local Abbreviation updateEditor' :=
  (@updateEditor Log ResultId ArtifactLocation Region Change
     parseArtifactLocation translateLocalToArtifact getOriginalDoc diffChars
     driftedRegionToSelection).
Local Abbreviation updateEditors' :=
  (@updateEditors Log ResultId ArtifactLocation Region Change
     parseArtifactLocation translateLocalToArtifact getOriginalDoc diffChars
     driftedRegionToSelection).
Local Abbreviation update' :=
  (update JSON_parse findResult parseArtifactLocation translateLocalToArtifact
     getOriginalDoc diffChars driftedRegionToSelection).
Local Abbreviation runUpdate' :=
  (runUpdate JSON_parse findResult parseArtifactLocation
     translateLocalToArtifact getOriginalDoc diffChars
     driftedRegionToSelection).
Local Abbreviation step' :=
  (step JSON_stringify JSON_parse findResult parseArtifactLocation
     translateLocalToArtifact getOriginalDoc diffChars
     driftedRegionToSelection).
Local Abbreviation State' := (@State Log).

Lemma option_string_eqb_refl (a : option string) : option_string_eqb a a = true.
Proof. destruct a as [x|]; simpl; [apply String.eqb_refl|reflexivity]. Qed.

Lemma runUpdate_activeResultId (s : State') :
  activeResultId (runUpdate' s) = activeResultId s.
Proof.
  unfold runUpdate.
  destruct (update' (activeResultId s) (store s) (visibleTextEditors s)).
  reflexivity.
Qed.

(** A selection that carries no result leaves the box as it is. *)
Lemma provideCodeActions_ignores (box : option string)
      (context : @CodeActionContext ResultId ArtifactLocation Region) :
  carriedResult context = None ->
  provideCodeActions JSON_stringify box context = (None, box).
Proof.
  unfold carriedResult, provideCodeActions. intros H.
  destruct (only context); [reflexivity|].
  destruct (nth_error (diagnostics context) 0) as [d|]; [|reflexivity].
  now rewrite H.
Qed.

(** C2. In every state, a selection event that carries no result leaves the
    pinned id as it is (the whole state, in fact: no pass is run), so a
    pinned id is never reset to the unset box; after a selection of a
    result followed by a selection without one, the id of that result is
    still the pinned one. *)
Theorem selection_without_result_keeps_pin (s : State')
        (context : @CodeActionContext ResultId ArtifactLocation Region) :
  carriedResult context = None ->
  step' s (SelectionEvent context) = s /\
  activeResultId (step' s (SelectionEvent context)) = activeResultId s /\
  (forall resultId, activeResultId s = Some resultId ->
     activeResultId (step' s (SelectionEvent context)) = Some resultId) /\
  (forall res,
     activeResultId
       (step' (step' s (SelectionEvent
                          {| only := None;
                             diagnostics := [ {| result := Some res |} ] |}))
              (SelectionEvent context))
     = Some (JSON_stringify (_id res))).
Proof.
  intros Hnone.
  assert (Hstep : forall t : State', step' t (SelectionEvent context) = t).
  { intros t. unfold step. rewrite (provideCodeActions_ignores _ _ Hnone).
    rewrite option_string_eqb_refl. now destruct t. }
  split; [apply Hstep|]. split; [now rewrite Hstep|]. split.
  - intros resultId H. now rewrite Hstep.
  - intros res. rewrite Hstep. unfold step. simpl.
    match goal with
    | |- context [if ?b then _ else _] => destruct b
    end; [reflexivity|].
    now rewrite runUpdate_activeResultId.
Qed.

(** C3 (as the code has it). A pass whose pinned id resolves to no result
    issues no [setDecorations] call: what every editor shows stays as it
    was, nothing is cleared by the pass itself; the pass ends without an
    exception and the pinned id stays, dangling. *)
Theorem stale_pin_pass_sets_nothing (s : State') (resultId : string)
        (id : ResultId) :
  activeResultId s = Some resultId ->
  JSON_parse resultId = Returned id ->
  findResult (logs (store s)) id = None ->
  update' (activeResultId s) (store s) (visibleTextEditors s)
  = ([], Returned tt) /\
  runUpdate' s = s /\
  (forall e, rendered (runUpdate' s) e = rendered s e) /\
  activeResultId (runUpdate' s) = Some resultId.
Proof.
  intros Hbox Hparse Hfind.
  assert (Hup : update' (activeResultId s) (store s) (visibleTextEditors s)
                = ([], Returned tt)).
  { unfold update. rewrite Hbox.
    destruct (truthy_string resultId); simpl; [|reflexivity].
    now rewrite Hparse, Hfind. }
  assert (Hrun : runUpdate' s = s).
  { unfold runUpdate. rewrite Hup. now destruct s. }
  split; [exact Hup|]. split; [exact Hrun|]. split.
  - intros e. now rewrite Hrun.
  - now rewrite Hrun.
Qed.

Lemma applyCalls_clear (editors : list TextEditor) :
  forall (shown : nat -> Rendered) (e : nat),
    applyCalls shown
      (flat_map (fun editor =>
                   [setDecorations (editorRef editor) (decorationTypeCallout []);
                    setDecorations (editorRef editor)
                      (decorationTypeHighlight [])])
                editors) e
    = if existsb (fun editor => Nat.eqb e (editorRef editor)) editors
      then cleared else shown e.
Proof.
  induction editors as [|ed eds IH]; intros shown e; simpl.
  - reflexivity.
  - unfold applyCalls in *. simpl. rewrite IH.
    destruct (existsb (fun editor => Nat.eqb e (editorRef editor)) eds);
      [now rewrite orb_true_r|].
    rewrite orb_false_r. unfold applyCall. simpl.
    destruct (Nat.eqb e (editorRef ed)); reflexivity.
Qed.

(** C4 (as the code has it). When the log collection shrinks, the observer
    empties both decoration sets of every visible editor, whether or not
    the pinned result still resolves, and runs no update pass: the other
    editors and the pinned id are left as they are. *)
Theorem log_removal_clears_visible_editors (s : State')
        (index deleteCount : nat) (added : list Log) :
  fst (splice (logs (store s)) index deleteCount added) <> [] ->
  let s' := step' s (LogsSpliced index deleteCount added) in
  (forall editor, In editor (visibleTextEditors s) ->
                  rendered s' (editorRef editor) = cleared) /\
  (forall e, (forall editor, In editor (visibleTextEditors s) ->
                             editorRef editor <> e) ->
             rendered s' e = rendered s e) /\
  activeResultId s' = activeResultId s /\
  visibleTextEditors s' = visibleTextEditors s /\
  logs (store s') = snd (splice (logs (store s)) index deleteCount added).
Proof.
  intros Hrem. unfold step.
  destruct (splice (logs (store s)) index deleteCount added)
    as [removed logs'] eqn:Es.
  simpl in Hrem. cbv zeta. simpl.
  destruct removed as [|l removed]; [congruence|]. simpl.
  repeat split.
  - intros editor Hin. rewrite applyCalls_clear.
    replace (existsb _ _) with true; [reflexivity|].
    symmetry. apply existsb_exists. exists editor. split; [exact Hin|].
    apply Nat.eqb_refl.
  - intros e Hnot. rewrite applyCalls_clear.
    destruct (existsb (fun editor => Nat.eqb e (editorRef editor))
                      (visibleTextEditors s)) eqn:Ex; [|reflexivity].
    apply existsb_exists in Ex. destruct Ex as (editor & Hin & Heq).
    apply Nat.eqb_eq in Heq. exfalso. apply (Hnot editor Hin). congruence.
Qed.

(** The filter callback hands [filter] a promise, which is truthy whatever
    it settles to: no location is filtered out. *)
Lemma locationsInDoc_keeps_all
      (res : @Result ResultId ArtifactLocation Region)
      (currentDoc : TextDocument) (locs : list TFL) :
  locationsInDoc' res currentDoc locs = locs.
Proof.
  unfold locationsInDoc, Js.filter, filterCallback. simpl.
  induction locs as [|x xs IH]; simpl; [reflexivity|now rewrite IH].
Qed.



(** How the loop body ends: both sets, or the highlights alone when
    [lineAt] rejected the end line of a range. *)
Lemma updateEditor_shape (st : @Store Log)
      (res : @Result ResultId ArtifactLocation Region) (editor : TextEditor) :
  let hl := setDecorations (editorRef editor)
              (decorationTypeHighlight
                 (rangesOf' st (document editor) (locationsOf res))) in
  (exists ds, updateEditor' st res editor
              = ([hl; setDecorations (editorRef editor)
                        (decorationTypeCallout ds)], Returned tt)) \/
  updateEditor' st res editor = ([hl], Threw IllegalArgument).
Proof.
  unfold updateEditor. rewrite locationsInDoc_keeps_all. cbv zeta.
  destruct (calloutsOf editor _ _) as [ds|e] eqn:Ec.
  - left. now exists ds.
  - right. now rewrite (calloutsOf_threw _ _ _ Ec).
Qed.


(** Setting the pair on an editor replaces whatever it showed. *)
Lemma setDecorations_pair_replaces (shown : nat -> Rendered) (e : nat)
      (rs : list Range) (cs : list DecorationOptions) :
  applyCalls shown
    [setDecorations e (decorationTypeHighlight rs);
     setDecorations e (decorationTypeCallout cs)] e
  = {| highlights := rs; callouts := cs |}.
Proof.
  unfold applyCalls, applyCall. simpl. now rewrite Nat.eqb_refl.
Qed.

(** The trace of the loop over the editors, whatever the ranges: pairs, and
    after them the highlights of the editor on which the pass threw. *)
Lemma updateEditors_shape (st : @Store Log)
      (res : @Result ResultId ArtifactLocation Region)
      (editors : list TextEditor) :
  exists paired,
    SetTogether paired /\
    (updateEditors' st res editors = (paired, Returned tt) \/
     exists e rs,
       updateEditors' st res editors
       = (paired ++ [setDecorations e (decorationTypeHighlight rs)],
          Threw IllegalArgument)).
Proof.
  induction editors as [|ed eds IH]; simpl.
  - exists []. split; [constructor|now left].
  - destruct (updateEditor_shape st res ed) as [(ds & ->)| ->].
    + destruct IH as (paired & Hp & [->|(e & rs & ->)]).
      * eexists. split; [|left; reflexivity]. simpl. now constructor.
      * eexists (_ :: _ :: paired). split; [now constructor|].
        right. exists e, rs. reflexivity.
    + exists []. split; [constructor|]. right. eexists _, _. reflexivity.
Qed.


End Facts.

(** ** Without a baseline snapshot *)

Section MissingBaseline.

Context {Log ResultId ArtifactLocation Change : Type}.
Variable parseArtifactLocation :
  @Result ResultId ArtifactLocation Range -> option ArtifactLocation
  -> option string.
Variable translateLocalToArtifact : string -> option string.
Variable getOriginalDoc : option string -> TextDocument -> option TextDocument.
Variable diffChars : string -> string -> list Change.
Variable project : list Change -> Range -> option Range.
Variable placeholder : Range.

(** C6. When no baseline snapshot is available for the document of an
    editor, no diff is computed and every location of the pass gets its
    baseline region verbatim as its range in the current document, whatever
    the Projector would do; the highlights are set with these ranges, and
    the pass ends normally on that editor when they end on lines of the
    document. *)
Theorem missing_baseline_degrades_to_identity (st : @Store Log)
        (res : @Result ResultId ArtifactLocation Range) (editor : TextEditor) :
  getOriginalDoc (option_map commit_sha (analysisInfo st)) (document editor)
  = None ->
  diffBlocks diffChars None (document editor) = [] /\
  (forall projector,
      rangesOf getOriginalDoc diffChars
        (driftedRegionToSelection_spec projector placeholder)
        st (document editor) (locationsOf res)
      = map (fun tfl => match regionOf tfl with
                        | Some baseline => baseline
                        | None => placeholder
                        end)
            (locationsOf res)) /\
  (exists rest out,
      updateEditor parseArtifactLocation translateLocalToArtifact
        getOriginalDoc diffChars
        (driftedRegionToSelection_spec project placeholder) st res editor
      = (setDecorations (editorRef editor)
           (decorationTypeHighlight
              (map (fun tfl => match regionOf tfl with
                               | Some baseline => baseline
                               | None => placeholder
                               end)
                   (locationsOf res))) :: rest, out)) /\
  ((forall tfl, In tfl (locationsOf res) ->
                line (end_ (match regionOf tfl with
                            | Some baseline => baseline
                            | None => placeholder
                            end))
                < List.length (lines (document editor))) ->
   snd (updateEditor parseArtifactLocation translateLocalToArtifact
          getOriginalDoc diffChars
          (driftedRegionToSelection_spec project placeholder) st res editor)
   = Returned tt).
Proof.
  intros Hnone.
  assert (Hranges : forall projector,
             rangesOf getOriginalDoc diffChars
               (driftedRegionToSelection_spec projector placeholder)
               st (document editor) (locationsOf res)
             = map (fun tfl => match regionOf tfl with
                               | Some baseline => baseline
                               | None => placeholder
                               end)
                   (locationsOf res)).
  { intros projector. unfold rangesOf. rewrite Hnone. apply map_ext.
    intros tfl. unfold driftedRegionToSelection_spec.
    now destruct (regionOf tfl). }
  split; [reflexivity|]. split; [exact Hranges|]. split.
  - destruct (updateEditor_shape parseArtifactLocation translateLocalToArtifact
                getOriginalDoc diffChars
                (driftedRegionToSelection_spec project placeholder)
                st res editor) as [(ds & ->)| ->];
      rewrite Hranges; eauto.
  - intros Hline. unfold updateEditor. rewrite locationsInDoc_keeps_all.
    cbv zeta. rewrite Hranges.
    destruct (calloutsOf_returns editor
                (map (fun tfl => match regionOf tfl with
                                 | Some baseline => baseline
                                 | None => placeholder
                                 end)
                     (locationsOf res))
                (messages (locationsOf res) (locationsOf res)))
      as (ds & -> & _); [|reflexivity].
    intros rng Hin. apply in_map_iff in Hin.
    destruct Hin as (tfl & <- & Htfl). now apply Hline.
Qed.

End MissingBaseline.

(** ** The concrete workspace *)

Lemma missing_baseline_degrades_to_identity_witness :
  exists rest out,
    updateEditor Demo.parseArtifactLocation Demo.translateLocalToArtifact
      Demo.noOriginalDoc Demo.diffChars Demo.driftedRegionToSelection
      (Demo.theStore) Demo.result42 Demo.editorA
    = (setDecorations 1
         (decorationTypeHighlight [Demo.span 0 4 7; Demo.span 1 0 3])
         :: rest, out).
Proof.
  apply (@missing_baseline_degrades_to_identity
           Demo.Log Demo.ResultId Demo.ArtifactLocation Demo.Change
           Demo.parseArtifactLocation Demo.translateLocalToArtifact
           Demo.noOriginalDoc Demo.diffChars (fun _ r => Some r) Demo.origin
           Demo.theStore Demo.result42 Demo.editorA).
  reflexivity.
Defined.

(** The sticky selection of the specification: result 42 is selected, then
    a diagnostic without a result; the pinned id is still that of 42. *)
Lemma selection_without_result_keeps_pin_witness :
  activeResultId
    (Demo.step (Demo.step Demo.initial (SelectionEvent (Demo.select Demo.result42)))
               (SelectionEvent Demo.selectNothing))
  = Some "42"%string.
Proof.
  apply (@selection_without_result_keeps_pin
           Demo.Log Demo.ResultId Demo.ArtifactLocation Range Demo.Change
           Demo.JSON_stringify Demo.JSON_parse Demo.findResult
           Demo.parseArtifactLocation Demo.translateLocalToArtifact
           Demo.noOriginalDoc Demo.diffChars Demo.driftedRegionToSelection
           Demo.initial Demo.selectNothing).
  reflexivity.
Defined.

Lemma stale_pin_pass_sets_nothing_witness :
  Demo.update (Some "42"%string) (store Demo.stale) [Demo.editorA]
  = ([], Returned tt).
Proof.
  apply (@stale_pin_pass_sets_nothing
           Demo.Log Demo.ResultId Demo.ArtifactLocation Range Demo.Change
           Demo.JSON_parse Demo.findResult
           Demo.parseArtifactLocation Demo.translateLocalToArtifact
           Demo.noOriginalDoc Demo.diffChars Demo.driftedRegionToSelection
           Demo.stale "42"%string 42); reflexivity.
Defined.

(** C3, against the claim as written: in [Demo.stale] the pinned id resolves
    to nothing, and the pass leaves the decorations of the visible editor
    in place instead of clearing them. *)
Lemma stale_pin_pass_does_not_clear :
  Demo.JSON_parse "42" = Returned 42 /\
  Demo.findResult (logs (store Demo.stale)) 42 = None /\
  Demo.update (activeResultId Demo.stale) (store Demo.stale)
              (visibleTextEditors Demo.stale) = ([], Returned tt) /\
  highlights (rendered (Demo.runUpdate Demo.stale) (editorRef Demo.editorA))
  = [Demo.span 0 4 7; Demo.span 1 0 3] /\
  ~ (forall editor, In editor (visibleTextEditors Demo.stale) ->
       rendered (Demo.runUpdate Demo.stale) (editorRef editor) = cleared).
Proof.
  repeat split; try reflexivity.
  intros H. specialize (H Demo.editorA (or_introl eq_refl)).
  apply (f_equal highlights) in H. vm_compute in H. discriminate.
Qed.

Lemma log_removal_clears_visible_editors_witness :
  rendered (Demo.step Demo.pinned42 Demo.closeOtherLog) (editorRef Demo.editorA)
  = cleared.
Proof.
  apply (@log_removal_clears_visible_editors
           Demo.Log Demo.ResultId Demo.ArtifactLocation Range Demo.Change
           Demo.JSON_stringify Demo.JSON_parse Demo.findResult
           Demo.parseArtifactLocation Demo.translateLocalToArtifact
           Demo.noOriginalDoc Demo.diffChars Demo.driftedRegionToSelection
           Demo.pinned42 1 1 []).
  - simpl. discriminate.
  - left. reflexivity.
Defined.

(** C4, against the claim as written: result 42 is pinned and rendered, the
    log of another result is closed; result 42 still resolves, a pass would
    render its steps again, but none is run and the editor stays cleared. *)
Lemma log_removal_leaves_live_pin_cleared :
  fst (splice (logs (store Demo.pinned42)) 1 1 []) = [[Demo.result7]] /\
  Demo.findResult
    (logs (store (Demo.step Demo.pinned42 Demo.closeOtherLog))) 42
  = Some Demo.result42 /\
  activeResultId (Demo.step Demo.pinned42 Demo.closeOtherLog)
  = Some "42"%string /\
  rendered (Demo.step Demo.pinned42 Demo.closeOtherLog) (editorRef Demo.editorA)
  = cleared /\
  highlights
    (rendered (Demo.runUpdate (Demo.step Demo.pinned42 Demo.closeOtherLog))
              (editorRef Demo.editorA))
  = [Demo.span 0 4 7; Demo.span 1 0 3] /\
  rendered (Demo.step Demo.pinned42 Demo.closeOtherLog) (editorRef Demo.editorA)
  <> rendered (Demo.runUpdate (Demo.step Demo.pinned42 Demo.closeOtherLog))
              (editorRef Demo.editorA).
Proof.
  repeat split; try reflexivity.
  intros H. apply (f_equal highlights) in H. vm_compute in H. discriminate.
Qed.

(** C1, on the code: the editor shows [a.ts]; the second step of result 42
    lies in [b.ts] and the callback settles to false for it, yet it is kept
    in [locationsInDoc] and the editor on [a.ts] gets its highlight and its
    callout. *)
Example filter_keeps_location_of_other_document :
  inCurrentDoc Demo.parseArtifactLocation Demo.translateLocalToArtifact
    Demo.result42 Demo.docA Demo.stepB = false /\
  locationsInDoc Demo.parseArtifactLocation Demo.translateLocalToArtifact
    Demo.result42 Demo.docA (locationsOf Demo.result42)
  = [Demo.stepA; Demo.stepB] /\
  List.filter
    (inCurrentDoc Demo.parseArtifactLocation Demo.translateLocalToArtifact
       Demo.result42 Demo.docA)
    (locationsOf Demo.result42)
  = [Demo.stepA] /\
  exists callouts,
    Demo.update (Some "42"%string) Demo.theStore [Demo.editorA]
    = ([setDecorations 1
          (decorationTypeHighlight [Demo.span 0 4 7; Demo.span 1 0 3]);
        setDecorations 1 (decorationTypeCallout callouts)],
       Returned tt) /\
    map hoverMessage callouts = ["Step 1: source"; "Step 2"]%string.
Proof.
  repeat split; try reflexivity.
  eexists. split; reflexivity.
Qed.

(** * Further properties of the module *)

Section Machine.

Context {Log ResultId ArtifactLocation Region Change : Type}.
Variable JSON_stringify : ResultId -> string.
Variable JSON_parse : string -> Outcome ResultId.
Variable findResult :
  list Log -> ResultId -> option (@Result ResultId ArtifactLocation Region).
Variable parseArtifactLocation :
  @Result ResultId ArtifactLocation Region -> option ArtifactLocation
  -> option string.
Variable translateLocalToArtifact : string -> option string.
Variable getOriginalDoc : option string -> TextDocument -> option TextDocument.
Variable diffChars : string -> string -> list Change.
Variable driftedRegionToSelection :
  list Change -> TextDocument -> option Region -> option TextDocument -> Range.

Local Abbreviation rangesOf' :=
  (@rangesOf Log ArtifactLocation Region Change getOriginalDoc diffChars
             driftedRegionToSelection).
Local Abbreviation updateEditor' :=
  (@updateEditor Log ResultId ArtifactLocation Region Change
     parseArtifactLocation translateLocalToArtifact getOriginalDoc diffChars
     driftedRegionToSelection).
Local Abbreviation updateEditors' :=
  (@updateEditors Log ResultId ArtifactLocation Region Change
     parseArtifactLocation translateLocalToArtifact getOriginalDoc diffChars
     driftedRegionToSelection).
Local Abbreviation update' :=
  (update JSON_parse findResult parseArtifactLocation translateLocalToArtifact
     getOriginalDoc diffChars driftedRegionToSelection).
Local Abbreviation runUpdate' :=
  (runUpdate JSON_parse findResult parseArtifactLocation
     translateLocalToArtifact getOriginalDoc diffChars
     driftedRegionToSelection).
Local Abbreviation step' :=
  (step JSON_stringify JSON_parse findResult parseArtifactLocation
     translateLocalToArtifact getOriginalDoc diffChars
     driftedRegionToSelection).
Local Abbreviation run' :=
  (run JSON_stringify JSON_parse findResult parseArtifactLocation
     translateLocalToArtifact getOriginalDoc diffChars
     driftedRegionToSelection).
Local Abbreviation State' := (@State Log).
Local Abbreviation Event' := (@Event Log ResultId ArtifactLocation Region).
Local Abbreviation Context' :=
  (@CodeActionContext ResultId ArtifactLocation Region).

Lemma runUpdate_frame (s : State') :
  activeResultId (runUpdate' s) = activeResultId s /\
  store (runUpdate' s) = store s /\
  visibleTextEditors (runUpdate' s) = visibleTextEditors s.
Proof.
  unfold runUpdate.
  destruct (update' (activeResultId s) (store s) (visibleTextEditors s)).
  repeat split.
Qed.

(** What one event does to the pin: nothing, unless it is a code-action
    request that is not restricted by [only] and whose first diagnostic
    carries a result; then the pin is the stringified id of that result. *)
Lemma step_activeResultId (s : State') (ev : Event') :
  activeResultId (step' s ev) = activeResultId s \/
  exists context res,
    ev = SelectionEvent context /\ only context = None /\
    carriedResult context = Some res /\
    activeResultId (step' s ev) = Some (JSON_stringify (_id res)).
Proof.
  destruct ev as [context|editors|index deleteCount added].
  - unfold step, provideCodeActions.
    destruct (only context) as [k|] eqn:Eo.
    + left. rewrite option_string_eqb_refl. reflexivity.
    + destruct (nth_error (diagnostics context) 0) as [d|] eqn:Ed.
      * destruct (result d) as [res|] eqn:Er.
        -- right. exists context, res. split; [reflexivity|].
           split; [exact Eo|]. split.
           ++ unfold carriedResult. now rewrite Ed.
           ++ match goal with
              | |- context [if ?b then _ else _] => destruct b
              end; [reflexivity|].
              match goal with
              | |- activeResultId (runUpdate _ _ _ _ _ _ _ ?t) = _ =>
                  destruct (runUpdate_frame t) as (-> & _)
              end. reflexivity.
        -- left. rewrite option_string_eqb_refl. reflexivity.
      * left. rewrite option_string_eqb_refl. reflexivity.
  - left. unfold step.
    match goal with
    | |- activeResultId (runUpdate _ _ _ _ _ _ _ ?t) = _ =>
        destruct (runUpdate_frame t) as (-> & _)
    end. reflexivity.
  - left. unfold step.
    destruct (splice (logs (store s)) index deleteCount added). reflexivity.
Qed.

(** X1. Once a result is pinned the box is never emptied again: after any
    sequence of selections, visible-editor changes and log splices the pin
    is still set. *)
Theorem pin_is_never_unset (s : @State Log) (evs : list Event') :
  activeResultId s <> None ->
  activeResultId
    (run JSON_stringify JSON_parse findResult parseArtifactLocation
       translateLocalToArtifact getOriginalDoc diffChars
       driftedRegionToSelection s evs)
  <> None.
Proof.
  revert s. induction evs as [|ev evs IH]; intros s Hs; simpl; [exact Hs|].
  unfold run in *. simpl. apply IH.
  destruct (step_activeResultId s ev) as [->|(context & res & _ & _ & _ & ->)];
    [exact Hs|discriminate].
Qed.

(** X2. A code-action request restricted by [only] is ignored altogether,
    even when its first diagnostic carries a result: the state stays as it
    is and no pass is run. *)
Theorem restricted_request_is_ignored (s : State') (context : Context')
        (kind : string) :
  only context = Some kind ->
  provideCodeActions JSON_stringify (activeResultId s) context
  = (None, activeResultId s) /\
  step' s (SelectionEvent context) = s.
Proof.
  intros Ho.
  assert (Hp : provideCodeActions JSON_stringify (activeResultId s) context
               = (None, activeResultId s)).
  { unfold provideCodeActions. now rewrite Ho. }
  split; [exact Hp|].
  unfold step. rewrite Hp, option_string_eqb_refl. now destruct s.
Qed.

(** X3. Selecting the result that is already pinned answers with the empty
    action list and changes nothing: the box holds the same string, its
    observer is not notified and no pass is run, so what the editors show
    (cleared decorations included) stays. *)
Theorem reselecting_the_pinned_result_is_a_no_op (s : State')
        (context : Context')
        (res : @Result ResultId ArtifactLocation Region) :
  only context = None ->
  carriedResult context = Some res ->
  activeResultId s = Some (JSON_stringify (_id res)) ->
  provideCodeActions JSON_stringify (activeResultId s) context
  = (Some [], activeResultId s) /\
  step' s (SelectionEvent context) = s.
Proof.
  intros Ho Hc Hbox.
  assert (Hp : provideCodeActions JSON_stringify (activeResultId s) context
               = (Some [], activeResultId s)).
  { unfold provideCodeActions, carriedResult in *. rewrite Ho.
    destruct (nth_error (diagnostics context) 0) as [d|]; [|discriminate].
    rewrite Hc. now rewrite Hbox. }
  split; [exact Hp|].
  unfold step. rewrite Hp, option_string_eqb_refl. now destruct s.
Qed.

(** X4. A splice of the logs that removes nothing (logs are only added, or
    the index lies past the end) touches neither the decorations nor the
    pin: only the log collection changes. *)
Theorem splice_without_removal_keeps_decorations (s : State')
        (index deleteCount : nat) (added : list Log) :
  deleteCount = 0 \/ List.length (logs (store s)) <= index ->
  step' s (LogsSpliced index deleteCount added)
  = {| activeResultId := activeResultId s;
       store := {| logs := firstn index (logs (store s)) ++ added
                           ++ skipn deleteCount (skipn index (logs (store s)));
                   analysisInfo := analysisInfo (store s) |};
       visibleTextEditors := visibleTextEditors s;
       rendered := rendered s |}.
Proof.
  intros H. unfold step, splice.
  assert (Hrem : firstn deleteCount (skipn index (logs (store s))) = []).
  { destruct H as [->|Hlen]; [reflexivity|].
    rewrite skipn_all2 by exact Hlen. now destruct deleteCount. }
  rewrite Hrem. reflexivity.
Qed.

(** What an editor shows after a trace: for each decoration type, the
    payload of the last call that set it on this editor, or what was shown
    before. *)
Lemma applyCalls_last (cs : list Call) :
  forall (shown : nat -> Rendered) (e : nat),
    applyCalls shown cs e
    = {| highlights := match lastHighlights cs e with
                       | Some rs => rs
                       | None => highlights (shown e)
                       end;
         callouts := match lastCallouts cs e with
                     | Some ds => ds
                     | None => callouts (shown e)
                     end |}.
Proof.
  induction cs as [|c cs IH]; intros shown e.
  - simpl. now destruct (shown e).
  - unfold applyCalls in *. simpl. rewrite IH.
    destruct (lastHighlights cs e), (lastCallouts cs e);
      unfold applyCall; destruct (Nat.eqb e (onEditor c));
      destruct (payload c); reflexivity.
Qed.

(** ** The trace of a pass *)

Lemma last_none_off_trace (cs : list Call) (e : nat) :
  (forall c, In c cs -> onEditor c <> e) ->
  lastHighlights cs e = None /\ lastCallouts cs e = None.
Proof.
  induction cs as [|c cs IH]; intros H; simpl; [now split|].
  destruct IH as (-> & ->); [intros c' Hc'; apply H; now right|].
  assert (Hne : Nat.eqb e (onEditor c) = false).
  { apply Nat.eqb_neq. intros Heq. apply (H c (or_introl eq_refl)). congruence. }
  now rewrite Hne.
Qed.

Lemma updateEditors_on_editors (st : @Store Log)
      (res : @Result ResultId ArtifactLocation Region)
      (editors : list TextEditor) :
  forall c, In c (fst (updateEditors' st res editors)) ->
            exists editor, In editor editors /\ onEditor c = editorRef editor.
Proof.
  induction editors as [|ed eds IH]; simpl; intros c Hc; [contradiction|].
  destruct (updateEditor_shape parseArtifactLocation translateLocalToArtifact
              getOriginalDoc diffChars driftedRegionToSelection st res ed)
    as [(ds & Hed)|Hed]; rewrite Hed in Hc.
  - destruct (updateEditors' st res eds) as [calls out]. simpl in *.
    destruct Hc as [<-|[<-|Hc]].
    + exists ed. split; [now left|reflexivity].
    + exists ed. split; [now left|reflexivity].
    + destruct (IH c Hc) as (editor & Hin & Heq).
      exists editor. split; [now right|exact Heq].
  - simpl in Hc. destruct Hc as [<-|[]].
    exists ed. split; [now left|reflexivity].
Qed.

Lemma update_on_editors (box : option string) (st : @Store Log)
      (editors : list TextEditor) :
  forall c, In c (fst (update' box st editors)) ->
            exists editor, In editor editors /\ onEditor c = editorRef editor.
Proof.
  unfold update. destruct box as [resultId|]; [|intros c []].
  destruct (truthy_string resultId); simpl; [|intros c []].
  destruct (JSON_parse resultId) as [id|e]; [|intros c []].
  destruct (findResult (logs st) id) as [res|]; [|intros c []].
  apply updateEditors_on_editors.
Qed.

(** X5. Whatever it renders and however it ends, a pass only ever calls
    [setDecorations] on editors that are visible: what any other editor
    shows is left as it was. *)
Theorem pass_touches_only_visible_editors (s : @State Log) :
  Forall (fun c => exists editor, In editor (visibleTextEditors s) /\
                                  onEditor c = editorRef editor)
         (fst (update JSON_parse findResult parseArtifactLocation
                 translateLocalToArtifact getOriginalDoc diffChars
                 driftedRegionToSelection
                 (activeResultId s) (store s) (visibleTextEditors s))) /\
  (forall e, (forall editor, In editor (visibleTextEditors s) ->
                             editorRef editor <> e) ->
             rendered
               (runUpdate JSON_parse findResult parseArtifactLocation
                  translateLocalToArtifact getOriginalDoc diffChars
                  driftedRegionToSelection s) e
             = rendered s e).
Proof.
  split.
  - apply Forall_forall. apply update_on_editors.
  - intros e Hnot. unfold runUpdate.
    pose proof (update_on_editors (activeResultId s) (store s)
                  (visibleTextEditors s)) as Hon.
    destruct (update' (activeResultId s) (store s) (visibleTextEditors s))
      as [calls out].
    simpl in *. rewrite applyCalls_last.
    destruct (@last_none_off_trace calls e) as (-> & ->).
    + intros c Hc. destruct (Hon c Hc) as (editor & Hin & ->).
      now apply Hnot.
    + now destruct (rendered s e).
Qed.

(** The callouts of an editor fail exactly on a range that ends below the
    last line of its document. *)
Lemma calloutsOf_threw_line (editor : TextEditor) (ranges : list Range)
      (msgs : list string) (e : Exn) :
  calloutsOf editor ranges msgs = Threw e ->
  exists rng, In rng ranges /\
              List.length (lines (document editor)) <= line (end_ rng).
Proof.
  intros Ht.
  destruct (Forall_Exists_dec
              (fun rng => line (end_ rng) < List.length (lines (document editor)))
              (fun rng => lt_dec (line (end_ rng))
                                 (List.length (lines (document editor))))
              ranges) as [Hall|Hex].
  - destruct (calloutsOf_returns editor ranges msgs) as (ds & Hds & _).
    { intros rng Hin. rewrite Forall_forall in Hall. now apply Hall. }
    congruence.
  - apply Exists_exists in Hex. destruct Hex as (rng & Hin & Hbad).
    exists rng. split; [exact Hin|lia].
Qed.

Lemma calloutsOf_length (editor : TextEditor) (ranges : list Range)
      (msgs : list string) (ds : list DecorationOptions) :
  calloutsOf editor ranges msgs = Returned ds ->
  List.length ds = List.length ranges.
Proof.
  unfold calloutsOf.
  destruct (rangesEnd (document editor) ranges) as [re|] eqn:Ere;
    simpl; [|discriminate].
  destruct (rangesEndAdj (document editor) (tabSize editor) re) as [adj|] eqn:Ea;
    simpl; [|discriminate].
  apply mapM_length in Ere. apply mapM_length in Ea.
  destruct (decorCallouts_returns re adj msgs) as (ds' & Hds' & Hlen & _);
    [lia|].
  rewrite Hds'. intros H. injection H as <-. lia.
Qed.

(** The two ways the loop body can end. *)
Lemma updateEditor_cases (st : @Store Log)
        (res : @Result ResultId ArtifactLocation Region)
        (editor : TextEditor) :
  let originalDoc :=
    getOriginalDoc (option_map commit_sha (analysisInfo st)) (document editor) in
  let ranges :=
    map (fun tfl =>
           driftedRegionToSelection
             (diffBlocks diffChars originalDoc (document editor))
             (document editor) (regionOf tfl) originalDoc)
        (locationsOf res) in
  let highlight :=
    setDecorations (editorRef editor) (decorationTypeHighlight ranges) in
  (exists ds,
      updateEditor' st res editor
      = ([highlight;
          setDecorations (editorRef editor) (decorationTypeCallout ds)],
         Returned tt) /\
      List.length ds = List.length (locationsOf res)) \/
  (updateEditor' st res editor = ([highlight], Threw IllegalArgument) /\
   exists rng, In rng ranges /\
               List.length (lines (document editor)) <= line (end_ rng)).
Proof.
  cbv zeta. unfold updateEditor.
  rewrite (locationsInDoc_keeps_all parseArtifactLocation
             translateLocalToArtifact).
  cbv zeta. unfold rangesOf.
  destruct (calloutsOf editor _ _) as [ds|e] eqn:Ec.
  - left. exists ds. split; [reflexivity|].
    apply calloutsOf_length in Ec. now rewrite Ec, length_map.
  - right. rewrite (calloutsOf_threw _ _ _ Ec). split; [reflexivity|].
    eapply calloutsOf_threw_line; eassumption.
Qed.

(** X12. On every visible editor, whatever document it shows, the loop body
    first sets the highlights, with one range per thread-flow location of
    the pinned result, in their order; then it either sets as many
    callouts and ends normally, or ends with the exception of [lineAt],
    because a range ends below the last line, leaving the callouts of the
    editor as they were. *)
Theorem every_location_is_highlighted_first (st : @Store Log)
        (res : @Result ResultId ArtifactLocation Region)
        (editor : TextEditor) :
  let originalDoc :=
    getOriginalDoc (option_map commit_sha (analysisInfo st)) (document editor) in
  let ranges :=
    map (fun tfl =>
           driftedRegionToSelection
             (diffBlocks diffChars originalDoc (document editor))
             (document editor) (regionOf tfl) originalDoc)
        (locationsOf res) in
  let highlight :=
    setDecorations (editorRef editor) (decorationTypeHighlight ranges) in
  (exists ds,
      updateEditor' st res editor
      = ([highlight;
          setDecorations (editorRef editor) (decorationTypeCallout ds)],
         Returned tt) /\
      List.length ds = List.length (locationsOf res)) \/
  (updateEditor' st res editor = ([highlight], Threw IllegalArgument) /\
   exists rng, In rng ranges /\
               List.length (lines (document editor)) <= line (end_ rng)).
Proof. exact (updateEditor_cases st res editor). Qed.

(** X6. A pass that ends with an exception in its loop ends with the one of
    [lineAt]: the visible editors before the failing one got both
    decoration sets, the failing one (some range of which ends below its
    last line) only its highlights, and the editors after it nothing. *)
Theorem pass_aborts_at_the_first_bad_editor (st : @Store Log)
        (res : @Result ResultId ArtifactLocation Region)
        (editors : list TextEditor) (calls : list Call) (e : Exn) :
  updateEditors' st res editors = (calls, Threw e) ->
  e = IllegalArgument /\
  exists done failing later paired,
    editors = done ++ failing :: later /\
    SetTogether paired /\
    map onEditor paired
    = flat_map (fun editor => [editorRef editor; editorRef editor]) done /\
    calls = paired
            ++ [setDecorations (editorRef failing)
                  (decorationTypeHighlight
                     (rangesOf' st (document failing) (locationsOf res)))] /\
    exists rng,
      In rng (rangesOf' st (document failing) (locationsOf res)) /\
      List.length (lines (document failing)) <= line (end_ rng).
Proof.
  revert calls. induction editors as [|ed eds IH]; simpl; intros calls H.
  - discriminate.
  - destruct (updateEditor_cases st res ed)
      as [(ds & Hed & _)|(Hed & rng & Hin & Hbad)]; rewrite Hed in H.
    + destruct (updateEditors' st res eds) as [calls' out] eqn:Er.
      injection H as <- ->.
      destruct (IH calls' eq_refl)
        as (-> & done & failing & later & paired & -> & Hp & Hm & -> & Hr).
      split; [reflexivity|].
      exists (ed :: done), failing, later,
        (setDecorations (editorRef ed)
           (decorationTypeHighlight
              (rangesOf' st (document ed) (locationsOf res)))
         :: setDecorations (editorRef ed) (decorationTypeCallout ds)
         :: paired).
      split; [reflexivity|]. split; [now constructor|].
      split; [simpl; now rewrite Hm|]. split; [reflexivity|exact Hr].
    + injection H as <- <-. split; [reflexivity|].
      exists [], ed, eds, []. split; [reflexivity|]. split; [constructor|].
      split; [reflexivity|]. split; [reflexivity|].
      exists rng. split; [exact Hin|exact Hbad].
Qed.

Lemma last_of_cleared_pairs (editors : list TextEditor) (e : nat) :
  let calls :=
    flat_map (fun editor =>
                [setDecorations (editorRef editor) (decorationTypeHighlight []);
                 setDecorations (editorRef editor) (decorationTypeCallout [])])
             editors in
  let seen := existsb (fun editor => Nat.eqb e (editorRef editor)) editors in
  lastHighlights calls e = (if seen then Some [] else None) /\
  lastCallouts calls e = (if seen then Some [] else None).
Proof.
  cbv zeta. induction editors as [|ed eds (IHh & IHc)]; simpl; [now split|].
  rewrite IHh, IHc.
  destruct (existsb (fun editor => Nat.eqb e (editorRef editor)) eds);
    [now rewrite orb_true_r|].
  rewrite orb_false_r. destruct (Nat.eqb e (editorRef ed)); now split.
Qed.

(** X7. When the pinned result has no thread-flow location (no code flow,
    no thread flow, or an empty one), the pass empties both decoration sets
    of every visible editor and ends normally, whatever the documents are:
    pinning such a result clears the steps of the result pinned before. *)
Theorem result_without_steps_clears (s : State') (resultId : string)
        (id : ResultId) (res : @Result ResultId ArtifactLocation Region) :
  activeResultId s = Some resultId ->
  resultId <> EmptyString ->
  JSON_parse resultId = Returned id ->
  findResult (logs (store s)) id = Some res ->
  locationsOf res = [] ->
  update' (activeResultId s) (store s) (visibleTextEditors s)
  = (flat_map (fun editor =>
                 [setDecorations (editorRef editor) (decorationTypeHighlight []);
                  setDecorations (editorRef editor) (decorationTypeCallout [])])
              (visibleTextEditors s),
     Returned tt) /\
  forall editor, In editor (visibleTextEditors s) ->
                 rendered (runUpdate' s) (editorRef editor) = cleared.
Proof.
  intros Hbox Hne Hparse Hfind Hlocs.
  assert (Hloop : forall editors,
             updateEditors' (store s) res editors
             = (flat_map
                  (fun editor =>
                     [setDecorations (editorRef editor)
                        (decorationTypeHighlight []);
                      setDecorations (editorRef editor)
                        (decorationTypeCallout [])])
                  editors, Returned tt)).
  { induction editors as [|ed eds IH]; simpl; [reflexivity|].
    unfold updateEditor. rewrite Hlocs. simpl. now rewrite IH. }
  assert (Hup : update' (activeResultId s) (store s) (visibleTextEditors s)
                = (flat_map
                     (fun editor =>
                        [setDecorations (editorRef editor)
                           (decorationTypeHighlight []);
                         setDecorations (editorRef editor)
                           (decorationTypeCallout [])])
                     (visibleTextEditors s), Returned tt)).
  { unfold update. rewrite Hbox.
    destruct resultId as [|c r]; [congruence|]. simpl.
    rewrite Hparse, Hfind. apply Hloop. }
  split; [exact Hup|].
  intros editor Hin. unfold runUpdate. rewrite Hup. simpl.
  rewrite applyCalls_last.
  destruct (last_of_cleared_pairs (visibleTextEditors s) (editorRef editor))
    as (-> & ->).
  replace (existsb _ _) with true; [reflexivity|].
  symmetry. apply existsb_exists. exists editor.
  split; [exact Hin|apply Nat.eqb_refl].
Qed.

Lemma updateEditor_rendered (st : @Store Log)
      (res : @Result ResultId ArtifactLocation Region) (editor : TextEditor) :
  (forall rng,
      In rng (rangesOf' st (document editor) (locationsOf res)) ->
      line (end_ rng) < List.length (lines (document editor))) ->
  exists ds,
    updateEditor' st res editor
    = ([setDecorations (editorRef editor)
          (decorationTypeHighlight
             (rangesOf' st (document editor) (locationsOf res)));
        setDecorations (editorRef editor) (decorationTypeCallout ds)],
       Returned tt) /\
    map hoverMessage ds
    = map (stepMessage (locationsOf res)) (locationsOf res) /\
    map doRange ds
    = map (anchorOf (document editor))
          (rangesOf' st (document editor) (locationsOf res)).
Proof.
  intros Hline. unfold updateEditor.
  rewrite (locationsInDoc_keeps_all parseArtifactLocation
             translateLocalToArtifact).
  cbv zeta.
  destruct (calloutsOf_returns editor
              (rangesOf' st (document editor) (locationsOf res))
              (messages (locationsOf res) (locationsOf res)) Hline)
    as (ds & Hds & Hlen & Hnth).
  rewrite Hds. exists ds. split; [reflexivity|].
  assert (Hlen' : List.length ds = List.length (locationsOf res)).
  { rewrite Hlen. unfold rangesOf. now rewrite length_map. }
  split; apply nth_error_ext; intros i; rewrite !nth_error_map.
  - destruct (nth_error (locationsOf res) i) as [tfl|] eqn:Ei.
    + assert (Hr : nth_error (rangesOf' st (document editor) (locationsOf res)) i
                   <> None).
      { unfold rangesOf. rewrite nth_error_map, Ei. discriminate. }
      destruct (nth_error (rangesOf' st (document editor) (locationsOf res)) i)
        as [rng|] eqn:Er; [|congruence].
      rewrite (Hnth i rng Er). simpl. f_equal.
      apply nth_error_nth. unfold messages. now rewrite nth_error_map, Ei.
    + apply nth_error_None in Ei.
      replace (nth_error ds i) with (@None DecorationOptions); [reflexivity|].
      symmetry. apply nth_error_None. lia.
  - destruct (nth_error (rangesOf' st (document editor) (locationsOf res)) i)
      as [rng|] eqn:Er.
    + now rewrite (Hnth i rng Er).
    + apply nth_error_None in Er.
      replace (nth_error ds i) with (@None DecorationOptions); [reflexivity|].
      symmetry. apply nth_error_None. lia.
Qed.

Lemma last_of_pair_then (e : nat) (rs : list Range)
      (ds : list DecorationOptions) (calls : list Call) (x : nat) :
  lastHighlights (setDecorations e (decorationTypeHighlight rs)
                  :: setDecorations e (decorationTypeCallout ds) :: calls) x
  = match lastHighlights calls x with
    | Some rs' => Some rs'
    | None => if Nat.eqb x e then Some rs else None
    end /\
  lastCallouts (setDecorations e (decorationTypeHighlight rs)
                :: setDecorations e (decorationTypeCallout ds) :: calls) x
  = match lastCallouts calls x with
    | Some ds' => Some ds'
    | None => if Nat.eqb x e then Some ds else None
    end.
Proof.
  simpl. destruct (lastHighlights calls x), (lastCallouts calls x);
    destruct (Nat.eqb x e); now split.
Qed.

(** X9. When the pinned result resolves, the visible editors are distinct
    and every computed range ends on a line of its document, then after the
    pass every visible editor shows exactly the ranges computed for it as
    highlights and, as callouts, one per location in the same order: the
    step message of the location, anchored at the end of the line on which
    its range ends. What the editor showed before does not matter. *)
Theorem pass_renders_every_visible_editor (s : State') (resultId : string)
        (id : ResultId) (res : @Result ResultId ArtifactLocation Region) :
  activeResultId s = Some resultId ->
  resultId <> EmptyString ->
  JSON_parse resultId = Returned id ->
  findResult (logs (store s)) id = Some res ->
  NoDup (map editorRef (visibleTextEditors s)) ->
  (forall editor, In editor (visibleTextEditors s) ->
     forall rng,
       In rng (rangesOf' (store s) (document editor) (locationsOf res)) ->
       line (end_ rng) < List.length (lines (document editor))) ->
  forall editor, In editor (visibleTextEditors s) ->
    let shown := rendered (runUpdate' s) (editorRef editor) in
    let ranges := rangesOf' (store s) (document editor) (locationsOf res) in
    highlights shown = ranges /\
    map hoverMessage (callouts shown)
    = map (stepMessage (locationsOf res)) (locationsOf res) /\
    map doRange (callouts shown) = map (anchorOf (document editor)) ranges.
Proof.
  intros Hbox Hne Hparse Hfind Hnd Hline editor Hin. cbv zeta.
  assert (Hloop : forall editors,
             NoDup (map editorRef editors) ->
             (forall ed, In ed editors ->
                forall rng,
                  In rng (rangesOf' (store s) (document ed) (locationsOf res)) ->
                  line (end_ rng) < List.length (lines (document ed))) ->
             exists calls,
               updateEditors' (store s) res editors = (calls, Returned tt) /\
               forall ed, In ed editors ->
                 exists ds,
                   lastHighlights calls (editorRef ed)
                   = Some (rangesOf' (store s) (document ed) (locationsOf res)) /\
                   lastCallouts calls (editorRef ed) = Some ds /\
                   map hoverMessage ds
                   = map (stepMessage (locationsOf res)) (locationsOf res) /\
                   map doRange ds
                   = map (anchorOf (document ed))
                         (rangesOf' (store s) (document ed) (locationsOf res))).
  { induction editors as [|ed0 eds IH]; intros Hnd' Hl.
    - exists []. split; [reflexivity|]. intros ed [].
    - simpl in Hnd'. inversion Hnd' as [|r rs Hnotin Hnd'']; subst.
      destruct (updateEditor_rendered (store s) res ed0
                  (Hl ed0 (or_introl eq_refl))) as (ds0 & Hed0 & Hm0 & Hr0).
      destruct (IH Hnd'') as (calls & Hcalls & Hlast).
      { intros ed Hed. apply Hl. now right. }
      simpl. rewrite Hed0, Hcalls. eexists. split; [reflexivity|].
      intros ed Hed. simpl app.
      destruct (last_of_pair_then (editorRef ed0)
                  (rangesOf' (store s) (document ed0) (locationsOf res))
                  ds0 calls (editorRef ed)) as (-> & ->).
      destruct Hed as [<-|Hed].
      + pose proof (updateEditors_on_editors (store s) res eds) as Hon.
        rewrite Hcalls in Hon. simpl in Hon.
        destruct (@last_none_off_trace calls (editorRef ed0)) as (-> & ->).
        { intros c Hc Heq. destruct (Hon c Hc) as (ed' & Hed' & Href).
          apply Hnotin. rewrite <- Heq, Href. now apply in_map. }
        rewrite Nat.eqb_refl. exists ds0. auto.
      + destruct (Hlast ed Hed) as (ds & -> & -> & Hm & Hr).
        exists ds. auto. }
  destruct (Hloop (visibleTextEditors s) Hnd Hline) as (calls & Hcalls & Hlast).
  destruct (Hlast editor Hin) as (ds & Hh & Hc & Hm & Hr).
  unfold runUpdate, update. rewrite Hbox.
  destruct resultId as [|c r]; [congruence|]. simpl.
  rewrite Hparse, Hfind, Hcalls. simpl.
  rewrite applyCalls_last, Hh, Hc. simpl. auto.
Qed.

(** ** Steps and decoration sets of an editor *)




End Machine.

(** ** The layout *)

(** X10. In a pass with at least one callout, the callout of a line whose
    adjusted end column is the greatest gets exactly two filler glyphs: the
    cushion is the smallest padding, and it is attained. *)
Theorem widest_line_gets_the_cushion (adj : list Z) :
  adj <> [] ->
  exists i, i < List.length adj /\
            Math_max adj = Int (nth i adj 0%Z) /\
            padding adj i = Int 2 /\
            forall j k, j < List.length adj -> padding adj j = Int k ->
                        (2 <= k)%Z.
Proof.
  intros Hne.
  destruct (Math_max_spec (xs := adj) Hne) as (m & Hm & Hin & Hall).
  destruct (In_nth adj m 0%Z Hin) as (i & Hi & Hnth).
  exists i. split; [exact Hi|]. split; [now rewrite Hnth|]. split.
  - unfold padding, maxRangeEnd. rewrite Hm, Hnth. simpl. f_equal. lia.
  - intros j k Hj Hk.
    destruct (padding_spec adj Hj) as (m' & _ & _ & _ & Hp & Hge).
    rewrite Hp in Hk. injection Hk as <-. exact Hge.
Qed.

(** X11. Every callout is anchored at an empty range at the end of the line
    on which its range ends (column: the length of that line), and its
    hover message is the message of the same index; there are as many
    callouts as ranges, in the same order. *)
Theorem callouts_sit_at_line_ends (editor : TextEditor) (ranges : list Range)
        (msgs : list string) :
  (forall rng, In rng ranges ->
               line (end_ rng) < List.length (lines (document editor))) ->
  exists ds,
    calloutsOf editor ranges msgs = Returned ds /\
    List.length ds = List.length ranges /\
    forall i rng,
      nth_error ranges i = Some rng ->
      exists c t,
        nth_error ds i = Some c /\
        nth_error (lines (document editor)) (line (end_ rng)) = Some t /\
        start (doRange c) = end_ (doRange c) /\
        end_ (doRange c) = {| line := line (end_ rng);
                              character := String.length t |} /\
        hoverMessage c = nth i msgs EmptyString.
Proof.
  intros Hline.
  destruct (calloutsOf_returns editor ranges msgs Hline)
    as (ds & Hds & Hlen & Hnth).
  exists ds. split; [exact Hds|]. split; [exact Hlen|].
  intros i rng Hi.
  assert (Hin : In rng ranges) by (eapply nth_error_In; eassumption).
  destruct (lineAt_returns (document editor) (Hline rng Hin)) as (t & Ht & _).
  exists (calloutAt (map (adjOf (document editor) (tabSize editor)) ranges)
                    msgs (anchorOf (document editor) rng) i), t.
  split; [now apply Hnth|]. split; [exact Ht|].
  unfold calloutAt, anchorOf. simpl.
  rewrite (nth_error_nth _ _ _ Ht). repeat split.
Qed.

(** X13. With a tab size of at least 1 the adjusted end column of a line is
    never less than its character column; it is the character column itself
    when the line has no tab or the tab size is 1. *)
Theorem adjusted_column_bounds (doc : TextDocument) (tabSize : Z)
        (rng : Range) :
  line (end_ rng) < List.length (lines doc) ->
  exists t v,
    nth_error (lines doc) (line (end_ rng)) = Some t /\
    endAdj doc tabSize (anchorOf doc rng) = Returned v /\
    ((1 <= tabSize)%Z -> (Z.of_nat (String.length t) <= v)%Z) /\
    (tabCount t = 0 \/ tabSize = 1%Z -> v = Z.of_nat (String.length t)) /\
    (tabCount t <= String.length t).
Proof.
  intros Hn. destruct (lineAt_returns doc Hn) as (t & Ht & Hl).
  exists t, (Z.of_nat (String.length t)
             + Z.of_nat (tabCount t) * (tabSize - 1))%Z.
  split; [exact Ht|]. split.
  - unfold endAdj, anchorOf. simpl. rewrite Hl. simpl.
    now rewrite (nth_error_nth _ _ _ Ht).
  - split; [intros; nia|]. split.
    + intros [->| ->]; lia.
    + clear. induction t as [|c t IH]; simpl; [lia|].
      destruct (Ascii.eqb c tab); lia.
Qed.

(** ** The concrete workspace, again *)

Lemma pin_is_never_unset_witness :
  activeResultId
    (run Demo.JSON_stringify Demo.JSON_parse Demo.findResult
       Demo.parseArtifactLocation Demo.translateLocalToArtifact
       Demo.noOriginalDoc Demo.diffChars Demo.driftedRegionToSelection
       Demo.pinned42
       [SelectionEvent Demo.selectNothing; Demo.closeOtherLog;
        VisibleEditorsChanged []; LogsSpliced 0 1 []])
  <> None.
Proof.
  apply (@pin_is_never_unset
           Demo.Log Demo.ResultId Demo.ArtifactLocation Range Demo.Change
           Demo.JSON_stringify Demo.JSON_parse Demo.findResult
           Demo.parseArtifactLocation Demo.translateLocalToArtifact
           Demo.noOriginalDoc Demo.diffChars Demo.driftedRegionToSelection
           Demo.pinned42).
  simpl. discriminate.
Defined.

Lemma restricted_request_is_ignored_witness :
  Demo.step Demo.initial
    (SelectionEvent {| only := Some "quickfix"%string;
                       diagnostics := [ {| result := Some Demo.result42 |} ] |})
  = Demo.initial.
Proof.
  apply (@restricted_request_is_ignored
           Demo.Log Demo.ResultId Demo.ArtifactLocation Range Demo.Change
           Demo.JSON_stringify Demo.JSON_parse Demo.findResult
           Demo.parseArtifactLocation Demo.translateLocalToArtifact
           Demo.noOriginalDoc Demo.diffChars Demo.driftedRegionToSelection
           Demo.initial _ "quickfix"%string).
  reflexivity.
Defined.

(** Result 42 is pinned, the other log is closed (which clears the editor),
    and result 42 is selected again: the editor stays cleared. *)
Lemma reselecting_the_pinned_result_is_a_no_op_witness :
  Demo.step (Demo.step Demo.pinned42 Demo.closeOtherLog)
            (SelectionEvent (Demo.select Demo.result42))
  = Demo.step Demo.pinned42 Demo.closeOtherLog.
Proof.
  apply (@reselecting_the_pinned_result_is_a_no_op
           Demo.Log Demo.ResultId Demo.ArtifactLocation Range Demo.Change
           Demo.JSON_stringify Demo.JSON_parse Demo.findResult
           Demo.parseArtifactLocation Demo.translateLocalToArtifact
           Demo.noOriginalDoc Demo.diffChars Demo.driftedRegionToSelection
           (Demo.step Demo.pinned42 Demo.closeOtherLog)
           (Demo.select Demo.result42) Demo.result42);
    reflexivity.
Defined.

Lemma splice_without_removal_keeps_decorations_witness :
  Demo.step Demo.pinned42 (LogsSpliced 2 0 [[Demo.result7]])
  = {| activeResultId := Some "42"%string;
       store := {| logs := [[Demo.result42]; [Demo.result7]; [Demo.result7]];
                   analysisInfo := None |};
       visibleTextEditors := [Demo.editorA];
       rendered := rendered Demo.pinned42 |}.
Proof.
  apply (@splice_without_removal_keeps_decorations
           Demo.Log Demo.ResultId Demo.ArtifactLocation Range Demo.Change
           Demo.JSON_stringify Demo.JSON_parse Demo.findResult
           Demo.parseArtifactLocation Demo.translateLocalToArtifact
           Demo.noOriginalDoc Demo.diffChars Demo.driftedRegionToSelection
           Demo.pinned42 2 0 [[Demo.result7]]).
  left. reflexivity.
Defined.

(** Three visible editors, the second on a document of one line: the first
    gets both sets, the second its highlights only, the third nothing. *)
Lemma pass_aborts_at_the_first_bad_editor_witness :
  exists done failing later paired,
    [Demo.editorA; Demo.editorShort; Demo.editorTabs]
    = done ++ failing :: later /\
    SetTogether paired /\
    map onEditor paired
    = flat_map (fun editor => [editorRef editor; editorRef editor]) done /\
    fst (updateEditors Demo.parseArtifactLocation Demo.translateLocalToArtifact
           Demo.noOriginalDoc Demo.diffChars Demo.driftedRegionToSelection
           Demo.theStore Demo.result42
           [Demo.editorA; Demo.editorShort; Demo.editorTabs])
    = paired
      ++ [setDecorations (editorRef failing)
            (decorationTypeHighlight
               (rangesOf Demo.noOriginalDoc Demo.diffChars
                  Demo.driftedRegionToSelection Demo.theStore
                  (document failing) (locationsOf Demo.result42)))] /\
    exists rng,
      In rng (rangesOf Demo.noOriginalDoc Demo.diffChars
                Demo.driftedRegionToSelection Demo.theStore
                (document failing) (locationsOf Demo.result42)) /\
      List.length (lines (document failing)) <= line (end_ rng).
Proof.
  destruct (@pass_aborts_at_the_first_bad_editor
              Demo.Log Demo.ResultId Demo.ArtifactLocation Range Demo.Change
              Demo.parseArtifactLocation Demo.translateLocalToArtifact
              Demo.noOriginalDoc Demo.diffChars Demo.driftedRegionToSelection
              Demo.theStore Demo.result42
              [Demo.editorA; Demo.editorShort; Demo.editorTabs]
              _ IllegalArgument eq_refl)
    as (_ & done & failing & later & paired & H1 & H2 & H3 & H4 & H5).
  exists done, failing, later, paired.
  split; [exact H1|]. split; [exact H2|]. split; [exact H3|].
  split; [exact H4|exact H5].
Defined.

Example pass_aborts_on_the_short_document :
  map onEditor
    (fst (updateEditors Demo.parseArtifactLocation Demo.translateLocalToArtifact
            Demo.noOriginalDoc Demo.diffChars Demo.driftedRegionToSelection
            Demo.theStore Demo.result42
            [Demo.editorA; Demo.editorShort; Demo.editorTabs]))
  = [1; 1; 2].
Proof. reflexivity. Qed.

Lemma result_without_steps_clears_witness :
  rendered (Demo.runUpdate Demo.pinned7) (editorRef Demo.editorA) = cleared.
Proof.
  apply (@result_without_steps_clears
           Demo.Log Demo.ResultId Demo.ArtifactLocation Range Demo.Change
           Demo.JSON_parse Demo.findResult
           Demo.parseArtifactLocation Demo.translateLocalToArtifact
           Demo.noOriginalDoc Demo.diffChars Demo.driftedRegionToSelection
           Demo.pinned7 "7"%string 7 Demo.result7);
    try reflexivity.
  - discriminate.
  - now left.
Defined.

Lemma pass_renders_every_visible_editor_witness :
  highlights
    (rendered
       (Demo.runUpdate {| activeResultId := Some "42"%string;
                          store := Demo.theStore;
                          visibleTextEditors := [Demo.editorA; Demo.editorTabs];
                          rendered := rendered Demo.pinned42 |})
       (editorRef Demo.editorTabs))
  = [Demo.span 0 4 7; Demo.span 1 0 3] /\
  map hoverMessage
    (callouts
       (rendered
          (Demo.runUpdate {| activeResultId := Some "42"%string;
                             store := Demo.theStore;
                             visibleTextEditors := [Demo.editorA; Demo.editorTabs];
                             rendered := rendered Demo.pinned42 |})
          (editorRef Demo.editorTabs)))
  = ["Step 1: source"; "Step 2"]%string.
Proof.
  destruct (@pass_renders_every_visible_editor
              Demo.Log Demo.ResultId Demo.ArtifactLocation Range Demo.Change
              Demo.JSON_parse Demo.findResult
              Demo.parseArtifactLocation Demo.translateLocalToArtifact
              Demo.noOriginalDoc Demo.diffChars Demo.driftedRegionToSelection
              {| activeResultId := Some "42"%string;
                 store := Demo.theStore;
                 visibleTextEditors := [Demo.editorA; Demo.editorTabs];
                 rendered := rendered Demo.pinned42 |}
              "42"%string 42 Demo.result42)
    with (editor := Demo.editorTabs) as (H1 & H2 & _).
  - reflexivity.
  - discriminate.
  - reflexivity.
  - reflexivity.
  - simpl. repeat constructor; simpl; intuition discriminate.
  - intros editor [<-|[<-|[]]] rng Hin; vm_compute in Hin;
      destruct Hin as [<-|[<-|[]]]; simpl; lia.
  - simpl. tauto.
  - split; [exact H1|exact H2].
Defined.

Lemma widest_line_gets_the_cushion_witness :
  exists i, i < 2 /\
            Math_max [10; 14]%Z = Int (nth i [10; 14]%Z 0%Z) /\
            padding [10; 14]%Z i = Int 2 /\
            forall j k, j < 2 -> padding [10; 14]%Z j = Int k -> (2 <= k)%Z.
Proof.
  apply (@widest_line_gets_the_cushion [10; 14]%Z). discriminate.
Defined.

Lemma callouts_sit_at_line_ends_witness :
  exists ds,
    calloutsOf Demo.editorTabs [Demo.span 0 1 7; Demo.span 1 0 1]
               ["Step 1"; "Step 2"]%string = Returned ds /\
    map doRange ds = [Demo.span 0 9 9; Demo.span 1 1 1].
Proof.
  destruct (@callouts_sit_at_line_ends Demo.editorTabs
              [Demo.span 0 1 7; Demo.span 1 0 1] ["Step 1"; "Step 2"]%string)
    as (ds & Hds & _ & _).
  - intros rng [<-|[<-|[]]]; simpl; lia.
  - exists ds. split; [exact Hds|].
    vm_compute in Hds. injection Hds as <-. reflexivity.
Defined.

Lemma adjusted_column_bounds_witness :
  exists t v,
    nth_error (lines Demo.docTabs) 0 = Some t /\
    endAdj Demo.docTabs 4 (anchorOf Demo.docTabs (Demo.span 0 1 7))
    = Returned v /\
    ((1 <= 4)%Z -> (Z.of_nat (String.length t) <= v)%Z) /\
    (tabCount t = 0 \/ 4%Z = 1%Z -> v = Z.of_nat (String.length t)) /\
    (tabCount t <= String.length t).
Proof.
  apply (@adjusted_column_bounds Demo.docTabs 4 (Demo.span 0 1 7)).
  simpl. lia.
Defined.

(** ** Where the messages start, and which tabs count *)

Lemma glyphs_append (a b : string) :
  glyphs (String.append a b) = glyphs a + glyphs b.
Proof.
  induction a as [|c a IH]; simpl; [reflexivity|]. rewrite IH. lia.
Qed.

Lemma glyphs_repeat_filler (n : nat) : glyphs (repeat_nat filler n) = n.
Proof.
  induction n as [|n IH]; [reflexivity|].
  cbn [repeat_nat]. rewrite glyphs_append, IH. reflexivity.
Qed.

Lemma nth_error_nth_map {A B} (f : A -> B) (xs : list A) (i : nat) (x : A)
      (d : B) :
  nth_error xs i = Some x -> nth i (map f xs) d = f x.
Proof.
  intros H. apply nth_error_nth. now rewrite nth_error_map, H.
Qed.

(** C5 (as the code has it). In an editor pass with at least one range (all
    ending on lines of the document), the padding of every callout is
    [maxVisualColumn] minus the visual end column of its own line, where
    [maxVisualColumn] is the greatest visual end column of the pass plus
    the cushion of 2. The text of the callout is a space, the padding, a
    space and the message, so every message of the pass starts at the same
    visual column, [maxVisualColumn + 2]. *)
Theorem callout_messages_start_together (editor : TextEditor)
        (ranges : list Range) (msgs : list string) :
  ranges <> [] ->
  (forall rng, In rng ranges ->
               line (end_ rng) < List.length (lines (document editor))) ->
  exists anchors adj m ds,
    rangesEnd (document editor) ranges = Returned anchors /\
    rangesEndAdj (document editor) (tabSize editor) anchors = Returned adj /\
    Math_max adj = Int m /\ In m adj /\ (forall x, In x adj -> (x <= m)%Z) /\
    maxRangeEnd adj = Int (m + 2) /\
    calloutsOf editor ranges msgs = Returned ds /\
    List.length ds = List.length ranges /\
    forall i rng,
      nth_error ranges i = Some rng ->
      exists c a,
        nth_error ds i = Some c /\ nth_error adj i = Some a /\
        padding adj i = Int (m + 2 - a) /\
        hoverMessage c = nth i msgs EmptyString /\
        contentText c
        = String.append " "
            (String.append (repeat_nat filler (Z.to_nat (m + 2 - a)))
               (String.append " " (hoverMessage c))) /\
        messageColumn a c = (m + 2 + 2)%Z.
Proof.
  intros Hne Hline.
  pose (adj := map (adjOf (document editor) (tabSize editor)) ranges).
  destruct (Math_max_spec (xs := adj)) as (m & Hm & Hin & Hall).
  { subst adj. destruct ranges; simpl; congruence. }
  destruct (calloutsOf_returns editor ranges msgs Hline)
    as (ds & Hds & Hlen & Hnth).
  exists (map (anchorOf (document editor)) ranges), adj, m, ds.
  split; [now apply rangesEnd_returns|].
  split; [now apply rangesEndAdj_returns|].
  split; [exact Hm|]. split; [exact Hin|]. split; [exact Hall|].
  split; [unfold maxRangeEnd; now rewrite Hm|].
  split; [exact Hds|]. split; [exact Hlen|].
  intros i rng Hi.
  assert (Ha : nth_error adj i
               = Some (adjOf (document editor) (tabSize editor) rng)).
  { subst adj. now rewrite nth_error_map, Hi. }
  assert (Hle : (adjOf (document editor) (tabSize editor) rng <= m)%Z).
  { apply Hall. eapply nth_error_In; eassumption. }
  assert (Hp : padding adj i
               = Int (m + 2 - adjOf (document editor) (tabSize editor) rng)).
  { unfold padding, maxRangeEnd. rewrite Hm.
    now rewrite (nth_error_nth _ _ _ Ha). }
  exists (calloutAt adj msgs (anchorOf (document editor) rng) i),
         (adjOf (document editor) (tabSize editor) rng).
  split; [now apply Hnth|]. split; [exact Ha|]. split; [exact Hp|].
  unfold calloutAt. rewrite Hp.
  split; [reflexivity|]. split; [reflexivity|].
  unfold messageColumn. cbn [contentText hoverMessage].
  rewrite !glyphs_append, glyphs_repeat_filler.
  change (glyphs " ") with 1. lia.
Qed.

(** The example of the specification, on a document whose lines are 10 and
    14 characters long: paddings of 6 and 2 glyphs, and both messages start
    at visual column 18. *)
Lemma callout_messages_start_together_witness :
  exists c1 c2,
    calloutsOf Demo.editorCols [Demo.span 0 0 1; Demo.span 1 0 1]
               ["Step 1"; "Step 2"]%string
    = Returned [c1; c2] /\
    messageColumn 10 c1 = 18%Z /\ messageColumn 14 c2 = 18%Z.
Proof.
  destruct (@callout_messages_start_together Demo.editorCols
              [Demo.span 0 0 1; Demo.span 1 0 1] ["Step 1"; "Step 2"]%string)
    as (anchors & adj & m & ds & _ & _ & _ & _ & _ & _ & Hds & _ & _).
  - discriminate.
  - intros rng [<-|[<-|[]]]; simpl; lia.
  - vm_compute in Hds. injection Hds as <-.
    eexists _, _. split; [reflexivity|]. split; reflexivity.
Defined.

(** C5, against the claim as written: with visual end columns 10 and 14 the
    paddings are 6 and 2, but the messages start at visual column 18, two
    columns after 16, because of the space on either side of the padding. *)
Lemma callout_messages_do_not_start_at_16 :
  rangesEndAdj Demo.docCols 4
    (map (anchorOf Demo.docCols) [Demo.span 0 0 1; Demo.span 1 0 1])
  = Returned [10; 14]%Z /\
  padding [10; 14]%Z 0 = Int 6 /\ padding [10; 14]%Z 1 = Int 2 /\
  calloutsOf Demo.editorCols [Demo.span 0 0 1; Demo.span 1 0 1]
             ["Step 1"; "Step 2"]%string
  = Returned [ {| doRange := Demo.span 0 10 10;
                  hoverMessage := "Step 1";
                  contentText := " ┄┄┄┄┄┄ Step 1" |};
               {| doRange := Demo.span 1 14 14;
                  hoverMessage := "Step 2";
                  contentText := " ┄┄ Step 2" |} ] /\
  messageColumn 10 {| doRange := Demo.span 0 10 10;
                      hoverMessage := "Step 1";
                      contentText := " ┄┄┄┄┄┄ Step 1" |} = 18%Z /\
  messageColumn 14 {| doRange := Demo.span 1 14 14;
                      hoverMessage := "Step 2";
                      contentText := " ┄┄ Step 2" |} = 18%Z /\
  messageColumn 10 {| doRange := Demo.span 0 10 10;
                      hoverMessage := "Step 1";
                      contentText := " ┄┄┄┄┄┄ Step 1" |} <> 16%Z.
Proof.
  repeat split; try reflexivity. vm_compute. discriminate.
Qed.

Lemma tabCount_count_occ (t : string) :
  tabCount t = count_occ ascii_dec (list_ascii_of_string t) tab.
Proof.
  induction t as [|c t IH]; simpl; [reflexivity|].
  destruct (ascii_dec c tab) as [->|Hne].
  - rewrite Ascii.eqb_refl, IH. reflexivity.
  - apply Ascii.eqb_neq in Hne. rewrite Hne, IH. reflexivity.
Qed.

(** C7 (as the code has it). For every anchor line and tab width, the
    visual end column entering the padding computation is the character
    column of the anchor, which is the end of the line the range ends on,
    plus [tabSize - 1] for every tab character of that whole line, those
    after the end of the range included: it does not depend on where in the
    line the range ends. *)
Theorem visual_end_column_counts_every_tab (doc : TextDocument) (tabSize : Z)
        (rng : Range) :
  line (end_ rng) < List.length (lines doc) ->
  exists t anchor,
    nth_error (lines doc) (line (end_ rng)) = Some t /\
    rangesEnd doc [rng] = Returned [anchor] /\
    start anchor = end_ anchor /\
    end_ anchor = {| line := line (end_ rng); character := String.length t |} /\
    rangesEndAdj doc tabSize [anchor]
    = Returned [(Z.of_nat (character (end_ anchor))
                 + Z.of_nat (count_occ ascii_dec (list_ascii_of_string t) tab)
                   * (tabSize - 1))%Z] /\
    forall other,
      line (end_ other) = line (end_ rng) ->
      rangesEnd doc [other] = Returned [anchor].
Proof.
  intros Hn. destruct (lineAt_returns doc Hn) as (t & Ht & Hl).
  exists t, (anchorOf doc rng).
  assert (Hnth : nth (line (end_ rng)) (lines doc) EmptyString = t)
    by (now apply nth_error_nth).
  split; [exact Ht|]. split; [|split; [|split; [|split]]].
  - unfold rangesEnd. simpl. rewrite Hl. simpl. unfold anchorOf.
    now rewrite Hnth.
  - reflexivity.
  - unfold anchorOf. simpl. now rewrite Hnth.
  - unfold rangesEndAdj, endAdj, anchorOf. simpl. rewrite Hl. simpl.
    now rewrite Hnth, tabCount_count_occ.
  - intros other Hother. unfold rangesEnd. simpl. rewrite Hother, Hl. simpl.
    unfold anchorOf. now rewrite Hnth.
Qed.

Lemma visual_end_column_counts_every_tab_witness :
  exists t anchor,
    nth_error (lines Demo.docTwoTabs) 0 = Some t /\
    rangesEnd Demo.docTwoTabs [Demo.span 0 1 2] = Returned [anchor] /\
    start anchor = end_ anchor /\
    end_ anchor = {| line := 0; character := String.length t |} /\
    rangesEndAdj Demo.docTwoTabs 4 [anchor]
    = Returned [(Z.of_nat (character (end_ anchor))
                 + Z.of_nat (count_occ ascii_dec (list_ascii_of_string t) tab)
                   * (4 - 1))%Z] /\
    forall other,
      line (end_ other) = 0 ->
      rangesEnd Demo.docTwoTabs [other] = Returned [anchor].
Proof.
  apply (@visual_end_column_counts_every_tab Demo.docTwoTabs 4
           (Demo.span 0 1 2)).
  simpl. lia.
Defined.

(** C7, against the claim as written: on the line tab, x, tab, y with tabs
    4 columns wide, for a range that ends after the x (column 2), the
    anchor is at column 4 and the code adds 3 for each of the two tabs of
    the line, 10; counting the tabs up to the end of the range only, there
    is one, which gives 7. *)
Lemma tabs_after_the_range_are_counted :
  rangesEnd Demo.docTwoTabs [Demo.span 0 1 2] = Returned [Demo.span 0 4 4] /\
  rangesEndAdj Demo.docTwoTabs 4 [Demo.span 0 4 4] = Returned [10%Z] /\
  (Z.of_nat (character (end_ (Demo.span 0 4 4)))
   + Z.of_nat
       (count_occ ascii_dec
          (list_ascii_of_string
             (substring 0 (character (end_ (Demo.span 0 1 2)))
                (nth 0 (lines Demo.docTwoTabs) EmptyString)))
          tab)
     * (4 - 1) = 7)%Z /\
  rangesEndAdj Demo.docTwoTabs 4 [Demo.span 0 4 4] <> Returned [7%Z].
Proof.
  repeat split; try reflexivity. vm_compute. discriminate.
Qed.

(** ** Steps without a region, documents that are too short *)



